(** * Promotion module of mascotas_node: routes and Publicity schema

    Shallow embedding of [src/promotion/routes.ts] (the express handlers of
    the promotion module) and of the mongoose schema [PublicitySchema],
    followed by the properties of the module's specification.

    Layout:
    - JavaScript strings as sequences of UTF-16 code units, with [trim];
    - the data of the module ([IPublicity], request, response, errors);
    - [Prog]: the handlers' effects (awaited collaborator calls, console
      output, the express response) as a small program monad, and [run],
      which executes a program against an environment and records a trace;
    - [Routes]: the five handlers; [initModule]: the route table;
    - [Mongoose]: documents, schema paths, construction and validation;
    - [PublicitySchema]: the schema as declared in the source;
    - [Store]: the collaborators whose files are not among the sources
      (user service, session middleware, promotion service);
    - predicates, concrete inputs, and the theorems. *)

From stdpp Require Import base option list strings gmap.
From Stdlib Require Import NArith Ascii.

Local Open Scope N_scope.
Local Open Scope string_scope.
Local Open Scope list_scope.

(** ** JavaScript strings *)

(** A JavaScript string is a sequence of UTF-16 code units; [.length]
    counts code units. *)
Abbreviation jsstring := (list N).

(** An ASCII literal of the source, as a JavaScript string. *)
Definition js (s : string) : jsstring :=
  N_of_ascii <$> String.list_ascii_of_string s.

(** ECMAScript WhiteSpace and LineTerminator code points, the characters
    [String.prototype.trim] strips. *)
Definition isWhiteSpace (c : N) : bool :=
  ((c =? 9) || (c =? 10) || (c =? 11) || (c =? 12) || (c =? 13) ||
   (c =? 32) || (c =? 160) || (c =? 5760) ||
   ((8192 <=? c) && (c <=? 8202)) ||
   (c =? 8232) || (c =? 8233) || (c =? 8239) || (c =? 8287) ||
   (c =? 12288) || (c =? 65279))%N.

Fixpoint trimStart (s : jsstring) : jsstring :=
  match s with
  | [] => []
  | c :: s' => if isWhiteSpace c then trimStart s' else s
  end.

Definition trimEnd (s : jsstring) : jsstring :=
  reverse (trimStart (reverse s)).

(** [String.prototype.trim]. *)
Definition trim (s : jsstring) : jsstring := trimEnd (trimStart s).

(** Truthiness of a string value: only the empty string is falsy. *)
Definition truthy (s : jsstring) : bool :=
  match s with [] => false | _ :: _ => true end.

(** ** Data of the module *)

(** [IPublicity]: a hydrated document of the [publicities] collection,
    with the [id] mongoose exposes on every document. *)
Record IPublicity := {
  id : jsstring;
  title : jsstring;
  description : jsstring;
  redirectLink : jsstring;
  imageId : jsstring;
  owner : option jsstring;
  enabled : bool
}.

(** [req.body]: the parsed JSON body, with the properties the module's
    requests carry (each may be absent). *)
Record Body := {
  body_title : option jsstring;
  body_description : option jsstring;
  body_redirectLink : option jsstring;
  body_imageId : option jsstring;
  body_enabled : option bool;
  body_image : option jsstring
}.

(** [req.user], set by the session middleware. *)
Record Session := { user_id : jsstring }.

(** [ISessionRequest], as far as the handlers read it.  [promotionId] is
    [req.params.promotionId]; routes without that parameter never read it. *)
Record ISessionRequest := {
  user : option Session;
  promotionId : jsstring;
  body : Body
}.

(** One entry of [error.ValidationErrorMessage.messages]. *)
Record ValidationItem := { path : string; message : jsstring }.

Record ValidationErrorMessage := { messages : list ValidationItem }.

(** What a promise of the module can be rejected with. *)
Inductive Rejection :=
| ValidationError (r : ValidationErrorMessage)
| PermissionError
| NotFound
| Unauthorized
| TypeError
| CollaboratorFailure (code : N).

(** The result of [imageService.create]. *)
Record ImageResult := { image_id : jsstring }.

(** What [res.json] / [res.send] are given.  All properties the module
    sends are strings. *)
Inductive Response :=
| Json (o : gmap string jsstring)
| JsonArray (l : list (gmap string jsstring))
| Send.

(** Arguments of [console.log]. *)
Inductive Logged :=
| LogString (s : jsstring)
| LogBody (b : Body).

(** ** Programs *)

(** The asynchronous calls a handler awaits, one constructor per imported
    function the module calls. *)
Inductive Op :=
| OnlyLoggedIn (authorization : option jsstring)
| UserHasPermission (uid role : jsstring)
| ServiceList
| ServiceCreate (b : Body)
| ServiceRead (i : jsstring)
| ServiceInvalidate (i : jsstring)
| ImageServiceCreate (b : Body).

(** What the promise of a call resolves to. *)
Definition Answer (o : Op) : Type :=
  match o with
  | OnlyLoggedIn _ => Session
  | UserHasPermission _ _ => unit
  | ServiceList => list IPublicity
  | ServiceCreate _ => jsstring
  | ServiceRead _ => IPublicity
  | ServiceInvalidate _ => unit
  | ImageServiceCreate _ => ImageResult
  end.

(** An async function body: it returns, throws (its promise is rejected),
    awaits a call, writes to the console, or writes the response. *)
Inductive Prog (A : Type) : Type :=
| Return (a : A)
| Throw (e : Rejection)
| Await (o : Op) (k : Answer o → Prog A)
| ConsoleLog (v : Logged) (k : Prog A)
| Res (r : Response) (k : Prog A).

Arguments Return {A} a.
Arguments Throw {A} e.
Arguments Await {A} o k.
Arguments ConsoleLog {A} v k.
Arguments Res {A} r k.

Fixpoint Prog_bind {A B : Type} (f : A → Prog B) (p : Prog A) : Prog B :=
  match p with
  | Return a => f a
  | Throw e => Throw e
  | Await o k => Await o (λ x, Prog_bind f (k x))
  | ConsoleLog v k => ConsoleLog v (Prog_bind f k)
  | Res r k => Res r (Prog_bind f k)
  end.

#[export] Instance Prog_mret : MRet Prog := @Return.
#[export] Instance Prog_mbind : MBind Prog := @Prog_bind.

Definition await (o : Op) : Prog (Answer o) := Await o Return.
Definition console_log (v : Logged) : Prog unit := ConsoleLog v (Return tt).
Definition res_json (o : gmap string jsstring) : Prog unit :=
  Res (Json o) (Return tt).
Definition res_json_array (l : list (gmap string jsstring)) : Prog unit :=
  Res (JsonArray l) (Return tt).
Definition res_send : Prog unit := Res Send (Return tt).

(** What an observer of a run sees, in order.  A call is recorded with
    whether its promise resolved ([true]) or was rejected ([false]). *)
Inductive Event :=
| EvCall (o : Op) (resolved : bool)
| EvLog (v : Logged)
| EvRes (r : Response).

(** The collaborators: each call acts on the world and resolves or is
    rejected. *)
Record Env (W : Type) := {
  handle : ∀ o : Op, W → (Rejection + Answer o) * W
}.
Arguments handle {W} _ _ _.

Record Outcome (W A : Type) := {
  result : Rejection + A;
  trace : list Event;
  world : W
}.
Arguments result {W A} _.
Arguments trace {W A} _.
Arguments world {W A} _.

Definition after {W A} (e : Event) (out : Outcome W A) : Outcome W A :=
  {| result := result out; trace := e :: trace out; world := world out |}.

(** Execution: a rejected await rejects the whole function at that point
    (no handler of the module catches anything). *)
Fixpoint run {W A : Type} (env : Env W) (p : Prog A) (w : W) : Outcome W A :=
  match p with
  | Return a => {| result := inr a; trace := []; world := w |}
  | Throw e => {| result := inl e; trace := []; world := w |}
  | Await o k =>
      match handle env o w with
      | (inl e, w') =>
          {| result := inl e; trace := [EvCall o false]; world := w' |}
      | (inr x, w') => after (EvCall o true) (run env (k x) w')
      end
  | ConsoleLog v k => after (EvLog v) (run env k w)
  | Res r k => after (EvRes r) (run env k w)
  end.

(** ** The handlers of [routes.ts] *)

Module Routes.

(** The text pushed by [validateUpdatePromotionPicture], code unit by code
    unit as the source file spells it (two non-ASCII units, 0xC3 0xA1,
    inside the word). *)
Definition invalid_image_message : jsstring :=
  (js "Imagen inv" ++ [195%N; 161%N] ++ js "lida.")%list.

(** [async function read(req, res)] *)
Definition read (req : ISessionRequest) : Prog unit :=
  result ← await (ServiceRead (promotionId req));
  res_json {[ "id" := id result;
              "title" := title result;
              "description" := description result;
              "redirectLink" := redirectLink result;
              "imageId" := imageId result ]}.

(** [async function create(req, res)].  [req.user.user_id] throws a
    TypeError when [req.user] is undefined. *)
Definition create (req : ISessionRequest) : Prog unit :=
  console_log (LogString (js "request body"));;
  console_log (LogBody (body req));;
  match user req with
  | None => Throw TypeError
  | Some u =>
      await (UserHasPermission (user_id u) (js "admin"));;
      result ← await (ServiceCreate (body req));
      console_log (LogString (js "result"));;
      console_log (LogString result);;
      res_json {[ "id" := result ]}
  end.

(** [async function remove(req, res)] *)
Definition remove (req : ISessionRequest) : Prog unit :=
  match user req with
  | None => Throw TypeError
  | Some u =>
      await (UserHasPermission (user_id u) (js "admin"));;
      await (ServiceInvalidate (promotionId req));;
      res_send
  end.

(** [async function validateUpdatePromotionPicture(imageId)]: the local
    [result.messages] array is pushed to, then inspected. *)
Definition validateUpdatePromotionPicture (imageId : jsstring) : Prog unit :=
  let result := {| messages := [] |} in
  let result :=
    if negb (truthy imageId) || (List.length imageId <=? 0)%nat
    then {| messages := (messages result ++
                         [{| path := "image";
                             message := invalid_image_message |}])%list |}
    else result in
  if (0 <? List.length (messages result))%nat
  then Throw (ValidationError result)
  else Return tt.

(** [async function updatePromotionPicture(req, res)] *)
Definition updatePromotionPicture (req : ISessionRequest) : Prog unit :=
  imageResult ← await (ImageServiceCreate (body req));
  console_log (LogString (js "imageResult id"));;
  console_log (LogString (image_id imageResult));;
  validateUpdatePromotionPicture (image_id imageResult);;
  res_json {[ "id" := image_id imageResult ]}.

(** The projection [list] maps over the result of [service.list]. *)
Definition list_item (item : IPublicity) : gmap string jsstring :=
  {[ "id" := id item;
     "title" := title item;
     "description" := description item;
     "redirectLink" := redirectLink item;
     "imageId" := imageId item ]}.

(** [async function list(req, res)] *)
Definition list (req : ISessionRequest) : Prog unit :=
  result ← await ServiceList;
  res_json_array (list_item <$> result).

End Routes.

(** ** The route table of [initModule] *)

Inductive Method := GET | POST | DELETE.

(** A segment of a route path: literal text or a [:name] parameter. *)
Inductive Segment := Lit (s : string) | Param (name : string).

(** An entry of a route's stack: the session middleware, or a handler. *)
Inductive Middleware :=
| onlyLoggedIn
| Handler (h : ISessionRequest → Prog unit).

Record Route := {
  route_path : list Segment;
  route_method : Method;
  route_stack : list Middleware
}.

(** [initModule(app)]: the routes in registration order, one entry per
    method of each [app.route(...)]. *)
Definition initModule : list Route :=
  [ {| route_path := [Lit "v1"; Lit "promotion"];
       route_method := GET;
       route_stack := [onlyLoggedIn; Handler Routes.list] |};
    {| route_path := [Lit "v1"; Lit "promotion"];
       route_method := POST;
       route_stack := [onlyLoggedIn; Handler Routes.create] |};
    {| route_path := [Lit "v1"; Lit "promotion"; Param "promotionId"];
       route_method := GET;
       route_stack := [Handler Routes.read] |};
    {| route_path := [Lit "v1"; Lit "promotion"; Param "promotionId"];
       route_method := DELETE;
       route_stack := [onlyLoggedIn; Handler Routes.remove] |};
    {| route_path := [Lit "v1"; Lit "promotion"; Lit "picture"];
       route_method := POST;
       route_stack := [onlyLoggedIn; Handler Routes.updatePromotionPicture] |} ].

(** An incoming request before any middleware ran: [url] holds the
    non-empty segments of the path. *)
Record HttpRequest := {
  http_method : Method;
  http_url : list jsstring;
  http_authorization : option jsstring;
  http_body : Body
}.

Definition Method_eqb (a b : Method) : bool :=
  match a, b with
  | GET, GET | POST, POST | DELETE, DELETE => true
  | _, _ => false
  end.

(** Express compares literal segments without regard to letter case. *)
Definition toLowerCase (s : jsstring) : jsstring :=
  (λ c, if (65 <=? c) && (c <=? 90) then c + 32 else c)%N <$> s.

(** Matching a route path against a request path, collecting
    [req.params]. *)
Fixpoint match_path (pat : list Segment) (url : list jsstring)
  : option (gmap string jsstring) :=
  match pat, url with
  | [], [] => Some ∅
  | Lit s :: pat', seg :: url' =>
      if bool_decide (toLowerCase seg = toLowerCase (js s))
      then match_path pat' url' else None
  | Param name :: pat', seg :: url' =>
      if truthy seg
      then (λ ps, <[name := seg]> ps) <$> match_path pat' url'
      else None
  | _, _ => None
  end.

(** The first registered route whose method and path match. *)
Fixpoint dispatch (routes : list Route) (r : HttpRequest)
  : option (list Middleware * gmap string jsstring) :=
  match routes with
  | [] => None
  | rt :: routes' =>
      if Method_eqb (route_method rt) (http_method r)
      then match match_path (route_path rt) (http_url r) with
           | Some ps => Some (route_stack rt, ps)
           | None => dispatch routes' r
           end
      else dispatch routes' r
  end.

(** Running a route's stack.  [onlyLoggedIn] either sets [req.user] and
    passes control on, or ends the request; a handler of this module never
    passes control on. *)
Fixpoint run_stack (stack : list Middleware) (auth : option jsstring)
    (req : ISessionRequest) : Prog unit :=
  match stack with
  | [] => Return tt
  | onlyLoggedIn :: rest =>
      s ← await (OnlyLoggedIn auth);
      run_stack rest auth
        {| user := Some s; promotionId := promotionId req; body := body req |}
  | Handler h :: _ => h req
  end.

(** Serving a request that one of the module's routes matches. *)
Definition serve (r : HttpRequest) : option (Prog unit) :=
  match dispatch initModule r with
  | None => None
  | Some (stack, ps) =>
      Some (run_stack stack (http_authorization r)
              {| user := None;
                 promotionId := default [] (ps !! "promotionId");
                 body := http_body r |})
  end.

(** ** Mongoose documents and schemas *)

(** The part of mongoose the schema relies on: a document is built from a
    raw object by running each path's setters on a supplied value and
    taking the path's default for an absent one; [validate] reports every
    [required] path whose value fails the type's required check. *)
Module Mongoose.

Inductive SchemaType := TString | TObjectId | TBoolean.

Inductive Value :=
| VString (s : jsstring)
| VObjectId (o : jsstring)
| VBoolean (b : bool).

(** The options of one schema path. *)
Record SchemaPath := {
  path_name : string;
  opt_type : SchemaType;
  opt_default : option Value;
  opt_trim : bool;
  opt_required : option jsstring;
  opt_ref : option string
}.

Record Schema := {
  paths : list SchemaPath;
  collection : string
}.

(** The [trim] setter acts on string values only. *)
Definition apply_setters (p : SchemaPath) (v : Value) : Value :=
  match v with
  | VString s => if opt_trim p then VString (trim s) else v
  | _ => v
  end.

(** Initial value of a path of a new document. *)
Definition init_path (raw : gmap string Value) (p : SchemaPath)
  : option Value :=
  match raw !! path_name p with
  | Some v => Some (apply_setters p v)
  | None => opt_default p
  end.

(** [new Model(raw)]: properties outside the schema are dropped. *)
Definition construct (sch : Schema) (raw : gmap string Value)
  : gmap string Value :=
  foldr (λ p d, match init_path raw p with
                | Some v => <[path_name p := v]> d
                | None => d
                end) ∅ (paths sch).

(** [doc.path = v], through the path's setters. *)
Definition set (sch : Schema) (name : string) (v : Value)
    (d : gmap string Value) : gmap string Value :=
  match List.find (λ p, bool_decide (path_name p = name)) (paths sch) with
  | Some p => <[name := apply_setters p v]> d
  | None => d
  end.

(** The required check of each schema type: a string must be a non-empty
    string, the others must be present with the path's type. *)
Definition checkRequired (t : SchemaType) (v : option Value) : bool :=
  match t, v with
  | TString, Some (VString s) => (0 <? List.length s)%nat
  | TObjectId, Some (VObjectId _) => true
  | TBoolean, Some (VBoolean _) => true
  | _, _ => false
  end.

Definition validate_path (d : gmap string Value) (p : SchemaPath)
  : list ValidationItem :=
  match opt_required p with
  | Some msg =>
      if checkRequired (opt_type p) (d !! path_name p) then []
      else [{| path := path_name p; message := msg |}]
  | None => []
  end.

(** [doc.validate()]: the failures, in the order of the schema. *)
Definition validate (sch : Schema) (d : gmap string Value)
  : list ValidationItem :=
  paths sch ≫= validate_path d.

End Mongoose.

Import Mongoose.

(** ** The schema of the source *)

(** [export const PublicitySchema = new mongoose.Schema({...},
    { collection: "publicities" })].  The first message holds one
    non-ASCII code unit (0xED). *)
Definition PublicitySchema : Schema :=
  {| paths :=
       [ {| path_name := "title"; opt_type := TString;
            opt_default := Some (VString (js "")); opt_trim := true;
            opt_required :=
              Some (js "Nombre no puede estar vac" ++ [237%N] ++ js "o.")%list;
            opt_ref := None |};
         {| path_name := "description"; opt_type := TString;
            opt_default := Some (VString (js "")); opt_trim := true;
            opt_required :=
              Some (js "La desripcion de la publicidad no puede estar vacia.");
            opt_ref := None |};
         {| path_name := "redirectLink"; opt_type := TString;
            opt_default := Some (VString (js "")); opt_trim := true;
            opt_required :=
              Some (js "Toda publicidad debe tener un link que redireccione a la publicidad.");
            opt_ref := None |};
         {| path_name := "imageId"; opt_type := TString;
            opt_default := Some (VString (js "")); opt_trim := true;
            opt_required :=
              Some (js "Toda publicidad debe tener una image que la represente.");
            opt_ref := None |};
         {| path_name := "owner"; opt_type := TObjectId;
            opt_default := None; opt_trim := false;
            opt_required := Some (js "Toda publicidad debe tener una dueno");
            opt_ref := Some "User" |};
         {| path_name := "enabled"; opt_type := TBoolean;
            opt_default := Some (VBoolean true); opt_trim := false;
            opt_required := None;
            opt_ref := None |} ];
     collection := "publicities" |}.

(** The properties of a request body, as the raw object a document is
    built from. *)
Definition body_fields (b : Body) : gmap string Value :=
  let put (k : string) (v : option Value) (m : gmap string Value) :=
    match v with Some x => <[k := x]> m | None => m end in
  put "title" (VString <$> body_title b)
    (put "description" (VString <$> body_description b)
      (put "redirectLink" (VString <$> body_redirectLink b)
        (put "imageId" (VString <$> body_imageId b)
          (put "enabled" (VBoolean <$> body_enabled b)
            (put "image" (VString <$> body_image b) ∅))))).

Definition get_string (d : gmap string Value) (k : string) : jsstring :=
  match d !! k with Some (VString s) => s | _ => [] end.

(** The typed view [IPublicity] of a document of this schema. *)
Definition hydrate (i : jsstring) (d : gmap string Value) : IPublicity :=
  {| id := i;
     title := get_string d "title";
     description := get_string d "description";
     redirectLink := get_string d "redirectLink";
     imageId := get_string d "imageId";
     owner := match d !! "owner" with
              | Some (VObjectId o) => Some o
              | _ => None
              end;
     enabled := match d !! "enabled" with
                | Some (VBoolean b) => b
                | _ => true
                end |}.

(** The document a request body gives rise to, owned by [caller]. *)
Definition new_publicity (caller : option jsstring) (b : Body)
  : gmap string Value :=
  let d := construct PublicitySchema (body_fields b) in
  match caller with
  | Some u => set PublicitySchema "owner" (VObjectId u) d
  | None => d
  end.

(** ** Collaborators whose files are not among the sources *)

Module Store.

(** The stored state the collaborators work on: who holds which role
    (user service) and the [publicities] collection, in insertion order. *)
Record World := {
  roles : list (jsstring * jsstring);
  publicities : list IPublicity
}.

Definition ids (w : World) : list jsstring := id <$> publicities w.

Definition disable (p : IPublicity) : IPublicity :=
  {| id := id p; title := title p; description := description p;
     redirectLink := redirectLink p; imageId := imageId p;
     owner := owner p; enabled := false |}.

Section Collaborators.

(** Identifier generation belongs to the persistence engine. *)
Variable newId : list jsstring → jsstring.

(** The image store is external to the module and keeps its images
    outside this state. *)
Variable imageService_create : Body → Rejection + ImageResult.

(** Modelled from the spec: [user/service.ts] is absent.
    [hasPermission(userId, roleName)] succeeds when the user holds the
    role and fails with a PermissionError otherwise; it has no side
    effect. *)
Definition hasPermission (uid role : jsstring) (w : World)
  : (Rejection + unit) * World :=
  if bool_decide ((uid, role) ∈ roles w) then (inr tt, w)
  else (inl PermissionError, w).

(** Modelled from the spec: [token/passport.ts] is absent.  The session
    middleware supplies the authenticated identity of the caller, or ends
    the request when there is none. *)
Definition passport (caller : option jsstring) (w : World)
  : (Rejection + Session) * World :=
  match caller with
  | Some u => (inr {| user_id := u |}, w)
  | None => (inl Unauthorized, w)
  end.

(** Modelled from the spec: [promotion/service.ts] is absent.
    [list()] returns all promotions with [enabled=true]. *)
Definition service_list (w : World)
  : (Rejection + list IPublicity) * World :=
  (inr (List.filter enabled (publicities w)), w).

(** Modelled from the spec: [promotion/service.ts] is absent.
    [create(input)] validates the input against the Promotion rules (the
    schema); on success it persists a new Promotion owned by the caller
    and returns its [id]; on failure it reports the failing rules and
    writes nothing.  The route passes only [req.body], so the caller is
    known to the environment that serves the request. *)
Definition service_create (caller : option jsstring) (b : Body) (w : World)
  : (Rejection + jsstring) * World :=
  let d := new_publicity caller b in
  match validate PublicitySchema d with
  | [] =>
      let i := newId (ids w) in
      (inr i, {| roles := roles w;
                 publicities := publicities w ++ [hydrate i d] |})
  | errs => (inl (ValidationError {| messages := errs |}), w)
  end.

(** Modelled from the spec: [promotion/service.ts] is absent.
    [read(id)] fetches a Promotion by [id], invalidated or not, and fails
    with NotFound if no record exists for [id]. *)
Definition service_read (i : jsstring) (w : World)
  : (Rejection + IPublicity) * World :=
  match List.find (λ p, bool_decide (id p = i)) (publicities w) with
  | Some p => (inr p, w)
  | None => (inl NotFound, w)
  end.

(** Modelled from the spec: [promotion/service.ts] is absent.
    [invalidate(id)] sets [enabled=false] on the record with that [id] and
    fails with NotFound if there is none; invalidating twice succeeds. *)
Definition service_invalidate (i : jsstring) (w : World)
  : (Rejection + unit) * World :=
  if existsb (λ p, bool_decide (id p = i)) (publicities w)
  then (inr tt,
        {| roles := roles w;
           publicities :=
             (λ p, if bool_decide (id p = i) then disable p else p)
               <$> publicities w |})
  else (inl NotFound, w).

(** The environment that serves a request of [caller]. *)
Definition env (caller : option jsstring) : Env World :=
  {| handle := λ o,
       match o as o' return World → (Rejection + Answer o') * World with
       | OnlyLoggedIn _ => passport caller
       | UserHasPermission uid role => hasPermission uid role
       | ServiceList => service_list
       | ServiceCreate b => service_create caller b
       | ServiceRead i => service_read i
       | ServiceInvalidate i => service_invalidate i
       | ImageServiceCreate b => λ w, (imageService_create b, w)
       end |}.

End Collaborators.

End Store.

(** ** Predicates on traces *)

(** An event that invokes a store mutation of the promotion service. *)
Definition is_mutation (e : Event) : Prop :=
  match e with
  | EvCall (ServiceCreate _) _ | EvCall (ServiceInvalidate _) _ => True
  | _ => False
  end.

(** The event of a resolved "admin" check for the request's user. *)
Definition admin_granted (req : ISessionRequest) (e : Event) : Prop :=
  ∃ u, user req = Some u ∧
       e = EvCall (UserHasPermission (user_id u) (js "admin")) true.

(** In a trace, every mutation comes after a resolved "admin" check. *)
Definition permission_first (req : ISessionRequest) (t : list Event) : Prop :=
  ∀ i e, t !! i = Some e → is_mutation e →
    ∃ j c, (j < i)%nat ∧ t !! j = Some c ∧ admin_granted req c.


(** ** Predicates on records *)

(** The value a trimmed string path of a new document takes for a body
    property: the trimmed text, or the default [""] when absent. *)
Definition stored (v : option jsstring) : jsstring :=
  match v with Some s => trim s | None => [] end.

(** The report entry of the schema path [name] when its required check
    fails. *)
Definition failure (name : string) : list ValidationItem :=
  p ← List.filter (λ p, bool_decide (path_name p = name)) (paths PublicitySchema);
  match opt_required p with
  | Some m => [{| path := name; message := m |}]
  | None => []
  end.

(** The four texts are non-empty and there is an owner. *)
Definition complete (p : IPublicity) : Prop :=
  title p ≠ [] ∧ description p ≠ [] ∧ redirectLink p ≠ [] ∧
  imageId p ≠ [] ∧ is_Some (owner p).

(** Neither the first nor the last code unit is whitespace. *)
Definition no_outer_whitespace (s : jsstring) : Prop :=
  (∀ c, head s = Some c → isWhiteSpace c = false) ∧
  (∀ c, last s = Some c → isWhiteSpace c = false).

Definition trimmed_record (p : IPublicity) : Prop :=
  no_outer_whitespace (title p) ∧ no_outer_whitespace (description p) ∧
  no_outer_whitespace (redirectLink p) ∧ no_outer_whitespace (imageId p).

(** ** Concrete inputs

    A small installation used to run the definitions: one administrator,
    one user without roles, an identifier generator and image stores that
    hand out a fixed identifier. *)
Module Fixtures.

Definition admin_user : jsstring := js "5b0a".
Definition plain_user : jsstring := js "5b0b".

(** Identifiers "p", "p0", "p00", ...: one longer for each known id. *)
Definition gen (known : list jsstring) : jsstring :=
  (js "p" ++ replicate (List.length known) 48%N)%list.

Definition image_store (i : jsstring) (b : Body) : Rejection + ImageResult :=
  inr {| image_id := i |}.

Definition env_of (caller : option jsstring) : Env Store.World :=
  Store.env gen (image_store (js "img1")) caller.

Definition env_image (i : jsstring) : Env Store.World :=
  Store.env gen (image_store i) (Some admin_user).

Definition empty_world : Store.World :=
  {| Store.roles := [(admin_user, js "admin")]; Store.publicities := [] |}.

(** The body of the specification's scenario: no [imageId]. *)
Definition dia_del_padre : Body :=
  {| body_title := Some (js "Dia del Padre");
     body_description := Some (js "...");
     body_redirectLink := Some (js "http://x");
     body_imageId := None;
     body_enabled := None;
     body_image := None |}.

(** The same body with an image identifier and surrounding blanks. *)
Definition dia_del_padre_image : Body :=
  {| body_title := Some (js "  Dia del Padre ");
     body_description := Some (js "...");
     body_redirectLink := Some (js "http://x");
     body_imageId := Some (js "img1");
     body_enabled := None;
     body_image := None |}.

Definition request (u : option jsstring) (i : jsstring) (b : Body)
  : ISessionRequest :=
  {| user := (λ x, {| user_id := x |}) <$> u; promotionId := i; body := b |}.

Definition promo (i : jsstring) (on : bool) : IPublicity :=
  {| id := i; title := js "Dia del Padre"; description := js "...";
     redirectLink := js "http://x"; imageId := js "img1";
     owner := Some admin_user; enabled := on |}.

(** A collection with one listed and one invalidated promotion. *)
Definition two_promos : Store.World :=
  {| Store.roles := [(admin_user, js "admin")];
     Store.publicities := [promo (js "p") true; promo (js "p0") false] |}.

End Fixtures.

(** ** Further projections and predicates *)

(** The calls of a trace, in order. *)
Definition calls (t : list Event) : list Op :=
  omap (λ e, match e with EvCall o _ => Some o | _ => None end) t.

(** The responses written in a trace, in order. *)
Definition responses (t : list Event) : list Response :=
  omap (λ e, match e with EvRes r => Some r | _ => None end) t.

(** The handlers [initModule] registers. *)
Definition registered (h : ISessionRequest → Prog unit) : Prop :=
  ∃ rt, rt ∈ initModule ∧ Handler h ∈ route_stack rt.

(** A text made of whitespace only (the empty text included). *)
Definition blank (s : jsstring) : Prop :=
  Forall (λ c, isWhiteSpace c = true) s.


(** A request segment that matches the literal [s] of a route path. *)
Definition matches_literal (seg : jsstring) (s : string) : bool :=
  bool_decide (toLowerCase seg = toLowerCase (js s)).

(** What [dispatch initModule] resolves to, by method and path shape. *)
Definition resolution (r : HttpRequest)
  : option (list Middleware * gmap string jsstring) :=
  match http_url r with
  | [a; b] =>
      if matches_literal a "v1" && matches_literal b "promotion"
      then match http_method r with
           | GET => Some ([onlyLoggedIn; Handler Routes.list], ∅)
           | POST => Some ([onlyLoggedIn; Handler Routes.create], ∅)
           | DELETE => None
           end
      else None
  | [a; b; i] =>
      if matches_literal a "v1" && matches_literal b "promotion"
      then match http_method r with
           | GET =>
               if truthy i
               then Some ([Handler Routes.read], {[ "promotionId" := i ]})
               else None
           | DELETE =>
               if truthy i
               then Some ([onlyLoggedIn; Handler Routes.remove],
                          {[ "promotionId" := i ]})
               else None
           | POST =>
               if matches_literal i "picture"
               then Some ([onlyLoggedIn;
                           Handler Routes.updatePromotionPicture], ∅)
               else None
           end
      else None
  | _ => None
  end.

(** The body that submits a record's own values again. *)
Definition resubmit (p : IPublicity) : Body :=
  {| body_title := Some (title p);
     body_description := Some (description p);
     body_redirectLink := Some (redirectLink p);
     body_imageId := Some (imageId p);
     body_enabled := Some (enabled p);
     body_image := None |}.

(** An installation whose collaborators are all down: every call is
    rejected with the same failure. *)
Definition unreachable_env : Env unit :=
  {| handle := λ o w, (inl (CollaboratorFailure 503), w) |}.

(** * Properties *)

(** ** Executing programs *)

Ltac prog_simpl :=
  cbn [mbind Prog_mbind Prog_bind mret Prog_mret await console_log
       res_json res_json_array res_send run after result trace world] in *.

(** Case analysis on the outcome of the next awaited call. *)
Ltac await_cases env o w :=
  let e := fresh "e" in
  let x := fresh "x" in
  let w' := fresh "w'" in
  let Hcall := fresh "Hcall" in
  destruct (handle env o w) as [[e|x] w'] eqn:Hcall; prog_simpl.

(** Case analysis on membership in an explicit trace. *)
Ltac in_trace H :=
  cbn in H;
  repeat (destruct H as [H|H]; [try discriminate H; try (by inversion H)|]);
  try contradiction.

Lemma run_bind {W A B} (env : Env W) (p : Prog A) (f : A → Prog B) (w : W) :
  run env (p ≫= f) w =
  match result (run env p w) with
  | inl e => {| result := inl e; trace := trace (run env p w);
                world := world (run env p w) |}
  | inr a =>
      let out := run env (f a) (world (run env p w)) in
      {| result := result out;
         trace := trace (run env p w) ++ trace out;
         world := world out |}
  end.
Proof.
  revert w. induction p as [a|e|o k IH|v k IH|r k IH]; intros w; prog_simpl.
  - by destruct (run env (f a) w).
  - done.
  - destruct (handle env o w) as [[e|x] w']; [done|].
    prog_simpl. fold (@Prog_bind A B). change (Prog_bind f (k x)) with (k x ≫= f).
    rewrite IH. by destruct (result (run env (k x) w')).
  - change (Prog_bind f k) with (k ≫= f).
    rewrite IH. by destruct (result (run env k w)).
  - change (Prog_bind f k) with (k ≫= f).
    rewrite IH. by destruct (result (run env k w)).
Qed.


(** ** Permission checks precede mutations *)

Section AnyEnvironment.

Context {W : Type} (env : Env W).

Lemma create_permission_first (req : ISessionRequest) (w : W) :
  permission_first req (trace (run env (Routes.create req) w)).
Proof.
  unfold Routes.create. prog_simpl.
  destruct (user req) as [u|] eqn:Hu; prog_simpl.
  - await_cases env (UserHasPermission (user_id u) (js "admin")) w.
    + intros [|[|[|i]]] ev Hev Hmut; simplify_eq/=; try done.
    + await_cases env (ServiceCreate (body req)) w'.
      * intros [|[|[|[|i]]]] ev Hev Hmut; simplify_eq/=; try done.
        exists 2%nat, (EvCall (UserHasPermission (user_id u) (js "admin")) true).
        split; [lia|]. split; [done|]. by exists u.
      * intros [|[|[|[|[|[|[|i]]]]]]] ev Hev Hmut; simplify_eq/=; try done.
        exists 2%nat, (EvCall (UserHasPermission (user_id u) (js "admin")) true).
        split; [lia|]. split; [done|]. by exists u.
  - intros [|[|i]] ev Hev Hmut; simplify_eq/=; done.
Qed.

Lemma remove_permission_first (req : ISessionRequest) (w : W) :
  permission_first req (trace (run env (Routes.remove req) w)).
Proof.
  unfold Routes.remove.
  destruct (user req) as [u|] eqn:Hu; prog_simpl.
  - await_cases env (UserHasPermission (user_id u) (js "admin")) w.
    + intros [|i] ev Hev Hmut; simplify_eq/=; done.
    + await_cases env (ServiceInvalidate (promotionId req)) w'.
      * intros [|[|i]] ev Hev Hmut; simplify_eq/=; try done.
        exists 0%nat, (EvCall (UserHasPermission (user_id u) (js "admin")) true).
        split; [lia|]. split; [done|]. by exists u.
      * intros [|[|[|i]]] ev Hev Hmut; simplify_eq/=; try done.
        exists 0%nat, (EvCall (UserHasPermission (user_id u) (js "admin")) true).
        split; [lia|]. split; [done|]. by exists u.
  - intros i ev Hev; simplify_eq/=.
Qed.

(** C1.  In every run of [create] and of [remove], each invocation of a
    store mutation ([service.create], [service.invalidate]) comes after a
    resolved [hasPermission(user_id, "admin")] of the request's user.  When
    that check is rejected, the handler is rejected with the check's own
    error, it stops there (the trace ends with the rejected check and
    holds no mutation, no response is written), and the world is the one
    the check left: nothing is written or modified. *)
Theorem permission_check_gates_mutation (req : ISessionRequest) (w : W) :
  permission_first req (trace (run env (Routes.create req) w)) ∧
  permission_first req (trace (run env (Routes.remove req) w)) ∧
  (∀ u e w',
     user req = Some u →
     handle env (UserHasPermission (user_id u) (js "admin")) w = (inl e, w') →
     run env (Routes.create req) w =
       {| result := inl e;
          trace := [EvLog (LogString (js "request body"));
                    EvLog (LogBody (body req));
                    EvCall (UserHasPermission (user_id u) (js "admin")) false];
          world := w' |} ∧
     run env (Routes.remove req) w =
       {| result := inl e;
          trace := [EvCall (UserHasPermission (user_id u) (js "admin")) false];
          world := w' |}).
Proof.
  split; [apply create_permission_first|].
  split; [apply remove_permission_first|].
  intros u e w' Hu Hcheck.
  unfold Routes.create, Routes.remove. rewrite Hu. prog_simpl.
  by rewrite Hcheck.
Qed.

End AnyEnvironment.

(** A user without the role asks to create and to delete: both are
    rejected with the PermissionError and the collection is untouched. *)
Lemma permission_check_gates_mutation_witness :
  user (Fixtures.request (Some Fixtures.plain_user) (js "p")
          Fixtures.dia_del_padre_image)
    = Some {| user_id := Fixtures.plain_user |} ∧
  handle (Fixtures.env_of (Some Fixtures.plain_user))
    (UserHasPermission Fixtures.plain_user (js "admin")) Fixtures.two_promos
    = (inl PermissionError, Fixtures.two_promos) ∧
  run (Fixtures.env_of (Some Fixtures.plain_user))
    (Routes.create (Fixtures.request (Some Fixtures.plain_user) (js "p")
                      Fixtures.dia_del_padre_image)) Fixtures.two_promos =
    {| result := inl PermissionError;
       trace := [EvLog (LogString (js "request body"));
                 EvLog (LogBody Fixtures.dia_del_padre_image);
                 EvCall (UserHasPermission Fixtures.plain_user (js "admin"))
                   false];
       world := Fixtures.two_promos |} ∧
  run (Fixtures.env_of (Some Fixtures.plain_user))
    (Routes.remove (Fixtures.request (Some Fixtures.plain_user) (js "p")
                      Fixtures.dia_del_padre_image)) Fixtures.two_promos =
    {| result := inl PermissionError;
       trace := [EvCall (UserHasPermission Fixtures.plain_user (js "admin"))
                   false];
       world := Fixtures.two_promos |}.
Proof.
  split; [reflexivity|]. split; [vm_compute; reflexivity|].
  exact (proj2 (proj2 (permission_check_gates_mutation
                         (Fixtures.env_of (Some Fixtures.plain_user))
                         (Fixtures.request (Some Fixtures.plain_user) (js "p")
                            Fixtures.dia_del_padre_image)
                         Fixtures.two_promos))
           {| user_id := Fixtures.plain_user |} PermissionError
           Fixtures.two_promos eq_refl eq_refl).
Defined.

(** ** The image-attach handler *)

Lemma validateUpdatePromotionPicture_cases (i : jsstring) :
  Routes.validateUpdatePromotionPicture i =
  match i with
  | [] => Throw (ValidationError
                   {| messages := [{| path := "image";
                                      message := Routes.invalid_image_message |}] |})
  | _ :: _ => Return tt
  end.
Proof. by destruct i. Qed.

(** What a run of [updatePromotionPicture] looks like once the image store
    has answered. *)
Lemma updatePromotionPicture_resolved {W} (env : Env W)
    (req : ISessionRequest) (w w' : W) (r : ImageResult) :
  handle env (ImageServiceCreate (body req)) w = (inr r, w') →
  run env (Routes.updatePromotionPicture req) w =
  {| result :=
       match image_id r with
       | [] => inl (ValidationError
                      {| messages := [{| path := "image";
                                         message := Routes.invalid_image_message |}] |})
       | _ :: _ => inr tt
       end;
     trace :=
       EvCall (ImageServiceCreate (body req)) true ::
       EvLog (LogString (js "imageResult id")) ::
       EvLog (LogString (image_id r)) ::
       match image_id r with
       | [] => []
       | _ :: _ => [EvRes (Json {[ "id" := image_id r ]})]
       end;
     world := w' |}.
Proof.
  intros Hcall. unfold Routes.updatePromotionPicture. prog_simpl.
  rewrite Hcall. prog_simpl.
  rewrite validateUpdatePromotionPicture_cases.
  by destruct (image_id r).
Qed.

Lemma updatePromotionPicture_rejected {W} (env : Env W)
    (req : ISessionRequest) (w w' : W) (e : Rejection) :
  handle env (ImageServiceCreate (body req)) w = (inl e, w') →
  run env (Routes.updatePromotionPicture req) w =
  {| result := inl e;
     trace := [EvCall (ImageServiceCreate (body req)) false];
     world := w' |}.
Proof.
  intros Hcall. unfold Routes.updatePromotionPicture. prog_simpl.
  by rewrite Hcall.
Qed.

(** C2.  Once the image store has returned an identifier, the attach
    operation fails with a ValidationError report exactly when that
    identifier has length 0; the report then is the single entry
    [{path: "image", message: invalid-image message}]; for every non-empty
    identifier the operation succeeds and its response is [{id}] with
    that identifier. *)
Theorem image_attach_fails_iff_empty_id {W} (env : Env W)
    (req : ISessionRequest) (w w' : W) (r : ImageResult) :
  handle env (ImageServiceCreate (body req)) w = (inr r, w') →
  let out := run env (Routes.updatePromotionPicture req) w in
  ((∃ report, result out = inl (ValidationError report))
     ↔ List.length (image_id r) = 0%nat) ∧
  (List.length (image_id r) = 0%nat →
     result out =
       inl (ValidationError
              {| messages := [{| path := "image";
                                 message := Routes.invalid_image_message |}] |})) ∧
  (List.length (image_id r) ≠ 0%nat →
     result out = inr tt ∧
     last (trace out) = Some (EvRes (Json {[ "id" := image_id r ]}))).
Proof.
  intros Hcall out. subst out.
  rewrite (updatePromotionPicture_resolved env req w w' r Hcall).
  destruct (image_id r) as [|c s]; cbn [result trace List.length].
  - split; [split; [done | eauto]|]. split; done.
  - split; [split; [by intros [? ?] | done]|]. split; done.
Qed.

(** The image store hands out the empty identifier. *)
Lemma image_attach_fails_iff_empty_id_witness :
  handle (Fixtures.env_image (js ""))
    (ImageServiceCreate
       (body (Fixtures.request (Some Fixtures.admin_user) [] Fixtures.dia_del_padre)))
    Fixtures.two_promos
    = (inr {| image_id := js "" |}, Fixtures.two_promos) ∧
  result (run (Fixtures.env_image (js ""))
            (Routes.updatePromotionPicture
               (Fixtures.request (Some Fixtures.admin_user) [] Fixtures.dia_del_padre))
            Fixtures.two_promos) =
    inl (ValidationError
           {| messages := [{| path := "image";
                              message := Routes.invalid_image_message |}] |}).
Proof.
  split; [reflexivity|].
  apply (image_attach_fails_iff_empty_id (Fixtures.env_image (js ""))
           (Fixtures.request (Some Fixtures.admin_user) [] Fixtures.dia_del_padre)
           Fixtures.two_promos Fixtures.two_promos {| image_id := js "" |}
           eq_refl).
  reflexivity.
Defined.

(** C10.  Whatever identifier of length greater than zero the image store
    returns, whitespace or not, validation passes and the handler responds
    with that identifier unchanged. *)
Theorem nonempty_image_id_is_accepted {W} (env : Env W)
    (req : ISessionRequest) (w w' : W) (r : ImageResult) :
  handle env (ImageServiceCreate (body req)) w = (inr r, w') →
  (0 < List.length (image_id r))%nat →
  Routes.validateUpdatePromotionPicture (image_id r) = Return tt ∧
  run env (Routes.updatePromotionPicture req) w =
    {| result := inr tt;
       trace := [EvCall (ImageServiceCreate (body req)) true;
                 EvLog (LogString (js "imageResult id"));
                 EvLog (LogString (image_id r));
                 EvRes (Json {[ "id" := image_id r ]})];
       world := w' |}.
Proof.
  intros Hcall Hlen.
  rewrite (updatePromotionPicture_resolved env req w w' r Hcall).
  rewrite validateUpdatePromotionPicture_cases.
  destruct (image_id r) as [|c s]; [cbn in Hlen; lia | done].
Qed.

(** The identifier is a single space: it is made of whitespace only (its
    trimmed form is empty), and it is accepted and sent back as it is. *)
Lemma nonempty_image_id_is_accepted_witness :
  trim (js " ") = [] ∧
  (0 < List.length (js " "))%nat ∧
  run (Fixtures.env_image (js " "))
    (Routes.updatePromotionPicture
       (Fixtures.request (Some Fixtures.admin_user) [] Fixtures.dia_del_padre))
    Fixtures.empty_world =
    {| result := inr tt;
       trace := [EvCall (ImageServiceCreate Fixtures.dia_del_padre) true;
                 EvLog (LogString (js "imageResult id"));
                 EvLog (LogString (js " "));
                 EvRes (Json {[ "id" := js " " ]})];
       world := Fixtures.empty_world |}.
Proof.
  split; [reflexivity|]. split; [cbn; lia|].
  apply (nonempty_image_id_is_accepted (Fixtures.env_image (js " "))
           (Fixtures.request (Some Fixtures.admin_user) [] Fixtures.dia_del_padre)
           Fixtures.empty_world Fixtures.empty_world {| image_id := js " " |}
           eq_refl).
  cbn; lia.
Defined.

(** C7.  Every run of the attach handler begins with the call that sends
    the body to the image store, and that is the only call it ever makes:
    no operation of the promotion service, and nothing that would remove
    the image.  The identifier that is validated is the store's answer, so
    a rejected store call ends the run before any validation; and when
    validation fails the run ends in the world the image store left, with
    the image created. *)
Theorem image_is_created_before_validation {W} (env : Env W)
    (req : ISessionRequest) (w : W) :
  let out := run env (Routes.updatePromotionPicture req) w in
  (∃ ok, head (trace out) = Some (EvCall (ImageServiceCreate (body req)) ok)) ∧
  (∀ o ok, EvCall o ok ∈ trace out → o = ImageServiceCreate (body req)) ∧
  (∀ e w', handle env (ImageServiceCreate (body req)) w = (inl e, w') →
     out = {| result := inl e;
              trace := [EvCall (ImageServiceCreate (body req)) false];
              world := w' |}) ∧
  (∀ r w', handle env (ImageServiceCreate (body req)) w = (inr r, w') →
     image_id r = [] →
     out = {| result :=
                inl (ValidationError
                       {| messages := [{| path := "image";
                                          message := Routes.invalid_image_message |}] |});
              trace := [EvCall (ImageServiceCreate (body req)) true;
                        EvLog (LogString (js "imageResult id"));
                        EvLog (LogString [])];
              world := w' |}).
Proof.
  intros out. subst out.
  destruct (handle env (ImageServiceCreate (body req)) w) as [[e|r] w1] eqn:Hcall.
  - rewrite (updatePromotionPicture_rejected env req w w1 e Hcall).
    cbn [trace]. split; [by eexists|].
    split; [intros o ok Hin; apply list_elem_of_In in Hin; by in_trace Hin|].
    split; [by intros ?? [= <- <-] | by intros ?? [=]].
  - rewrite (updatePromotionPicture_resolved env req w w1 r Hcall).
    cbn [trace]. split; [by eexists|].
    split.
    { intros o ok Hin. apply list_elem_of_In in Hin.
      destruct (image_id r); by in_trace Hin. }
    split; [by intros ?? [=]|].
    intros r' w' [= <- <-] Hid. by rewrite Hid.
Qed.

(** The store returns the empty identifier: the run ends in a
    ValidationError after the creation, and the collection of promotions
    is as before. *)
Lemma image_is_created_before_validation_witness :
  handle (Fixtures.env_image (js ""))
    (ImageServiceCreate
       (body (Fixtures.request (Some Fixtures.admin_user) [] Fixtures.dia_del_padre)))
    Fixtures.two_promos
    = (inr {| image_id := js "" |}, Fixtures.two_promos) ∧
  image_id {| image_id := js "" |} = [] ∧
  run (Fixtures.env_image (js ""))
    (Routes.updatePromotionPicture
       (Fixtures.request (Some Fixtures.admin_user) [] Fixtures.dia_del_padre))
    Fixtures.two_promos =
    {| result :=
         inl (ValidationError
                {| messages := [{| path := "image";
                                   message := Routes.invalid_image_message |}] |});
       trace := [EvCall (ImageServiceCreate Fixtures.dia_del_padre) true;
                 EvLog (LogString (js "imageResult id"));
                 EvLog (LogString [])];
       world := Fixtures.two_promos |}.
Proof.
  split; [reflexivity|]. split; [reflexivity|].
  exact (proj2 (proj2 (proj2
           (image_is_created_before_validation (Fixtures.env_image (js ""))
              (Fixtures.request (Some Fixtures.admin_user) []
                 Fixtures.dia_del_padre)
              Fixtures.two_promos)))
           {| image_id := js "" |} Fixtures.two_promos eq_refl eq_refl).
Defined.

(** ** What [list] and [read] send *)

Lemma list_item_dom (item : IPublicity) :
  dom (Routes.list_item item) =
  ({[ "id"; "title"; "description"; "redirectLink"; "imageId" ]} : gset string).
Proof.
  unfold Routes.list_item.
  rewrite !dom_insert_L, dom_singleton_L. reflexivity.
Qed.

Lemma list_item_fields (item : IPublicity) :
  Routes.list_item item !! "id" = Some (id item) ∧
  Routes.list_item item !! "title" = Some (title item) ∧
  Routes.list_item item !! "description" = Some (description item) ∧
  Routes.list_item item !! "redirectLink" = Some (redirectLink item) ∧
  Routes.list_item item !! "imageId" = Some (imageId item) ∧
  Routes.list_item item !! "owner" = None ∧
  Routes.list_item item !! "enabled" = None.
Proof. repeat split; reflexivity. Qed.

(** C5.  Whatever [service.list] resolves to, the response of [list] is
    the array of its items in order, each projected to an object whose
    properties are exactly [id], [title], [description], [redirectLink]
    and [imageId], holding the item's values; [owner] and [enabled] are in
    none of them. *)
Theorem list_response_has_five_fields {W} (env : Env W)
    (req : ISessionRequest) (w : W) (r : Response) :
  EvRes r ∈ trace (run env (Routes.list req) w) →
  ∃ items w',
    handle env ServiceList w = (inr items, w') ∧
    r = JsonArray (Routes.list_item <$> items) ∧
    Forall (λ o : gmap string jsstring,
              dom o = ({[ "id"; "title"; "description"; "redirectLink";
                          "imageId" ]} : gset string) ∧
              ("owner" ∉ dom o) ∧ ("enabled" ∉ dom o))
           (Routes.list_item <$> items) ∧
    Forall2 (λ (item : IPublicity) (o : gmap string jsstring),
               o !! "id" = Some (id item) ∧
               o !! "title" = Some (title item) ∧
               o !! "description" = Some (description item) ∧
               o !! "redirectLink" = Some (redirectLink item) ∧
               o !! "imageId" = Some (imageId item))
            items (Routes.list_item <$> items).
Proof.
  unfold Routes.list. prog_simpl.
  destruct (handle env ServiceList w) as [[e|items] w'] eqn:Hcall;
    prog_simpl; intros Hin; apply list_elem_of_In in Hin.
  - in_trace Hin.
  - cbn in Hin. destruct Hin as [Hin|[Hin|[]]]; [discriminate|].
    injection Hin as <-.
    exists items, w'. split; [done|]. split; [done|]. split.
    + apply Forall_fmap, Forall_forall. intros item _. cbn.
      split; [apply list_item_dom|].
      split; apply not_elem_of_dom; apply list_item_fields.
    + apply Forall2_fmap_r, Forall2_same_length_lookup.
      split; [done|]. intros i x y Hx Hy. simplify_eq.
      by destruct (list_item_fields x) as (?&?&?&?&?&_).
Qed.

(** Listing the two stored promotions as an administrator. *)
Lemma list_response_has_five_fields_witness :
  EvRes (JsonArray [Routes.list_item (Fixtures.promo (js "p") true)])
    ∈ trace (run (Fixtures.env_of (Some Fixtures.admin_user))
               (Routes.list (Fixtures.request (Some Fixtures.admin_user) []
                               Fixtures.dia_del_padre))
               Fixtures.two_promos) ∧
  ∃ items w',
    handle (Fixtures.env_of (Some Fixtures.admin_user)) ServiceList
      Fixtures.two_promos = (inr items, w') ∧
    JsonArray [Routes.list_item (Fixtures.promo (js "p") true)]
      = JsonArray (Routes.list_item <$> items) ∧
    Forall (λ o : gmap string jsstring,
              dom o = ({[ "id"; "title"; "description"; "redirectLink";
                          "imageId" ]} : gset string) ∧
              ("owner" ∉ dom o) ∧ ("enabled" ∉ dom o))
           (Routes.list_item <$> items) ∧
    Forall2 (λ (item : IPublicity) (o : gmap string jsstring),
               o !! "id" = Some (id item) ∧
               o !! "title" = Some (title item) ∧
               o !! "description" = Some (description item) ∧
               o !! "redirectLink" = Some (redirectLink item) ∧
               o !! "imageId" = Some (imageId item))
            items (Routes.list_item <$> items).
Proof.
  assert (Hin : EvRes (JsonArray [Routes.list_item (Fixtures.promo (js "p") true)])
            ∈ trace (run (Fixtures.env_of (Some Fixtures.admin_user))
                       (Routes.list (Fixtures.request (Some Fixtures.admin_user) []
                                       Fixtures.dia_del_padre))
                       Fixtures.two_promos)).
  { apply list_elem_of_In. right. left. reflexivity. }
  split; [exact Hin|].
  exact (list_response_has_five_fields _ _ _ _ Hin).
Defined.

(** A request [GET /v1/promotion/<id>] is routed to [read] alone. *)
Lemma serve_read (r : HttpRequest) (i : jsstring) :
  http_method r = GET →
  http_url r = [js "v1"; js "promotion"; i] →
  i ≠ [] →
  serve r = Some (Routes.read {| user := None; promotionId := i;
                                 body := http_body r |}).
Proof.
  intros Hm Hu Hi. unfold serve, initModule, dispatch.
  rewrite Hm, Hu. cbn [route_method route_path route_stack Method_eqb].
  destruct i as [|c i]; [done|]. reflexivity.
Qed.

(** C6.  A [GET /v1/promotion/<id>] request is dispatched to a stack that
    holds [read] only, without the session middleware, whatever
    credentials it carries.  A run of [read], for a request with or
    without a session user, makes one call, [service.read] of the
    requested id: no permission check and no login check.  When that call
    resolves with a record, the handler succeeds and responds with the
    record's [id], [title], [description], [redirectLink] and [imageId]. *)
Theorem read_needs_no_permission {W} (env : Env W) :
  (∀ (r : HttpRequest) (i : jsstring),
     http_method r = GET →
     http_url r = [js "v1"; js "promotion"; i] →
     i ≠ [] →
     dispatch initModule r
       = Some ([Handler Routes.read], {[ "promotionId" := i ]}) ∧
     serve r = Some (Routes.read {| user := None; promotionId := i;
                                    body := http_body r |})) ∧
  (∀ (req : ISessionRequest) (w : W) (o : Op) (ok : bool),
     EvCall o ok ∈ trace (run env (Routes.read req) w) →
     o = ServiceRead (promotionId req)) ∧
  (∀ (req : ISessionRequest) (w w' : W) (p : IPublicity),
     handle env (ServiceRead (promotionId req)) w = (inr p, w') →
     run env (Routes.read req) w =
       {| result := inr tt;
          trace := [EvCall (ServiceRead (promotionId req)) true;
                    EvRes (Json {[ "id" := id p;
                                   "title" := title p;
                                   "description" := description p;
                                   "redirectLink" := redirectLink p;
                                   "imageId" := imageId p ]})];
          world := w' |}).
Proof.
  split; [|split].
  - intros r i Hm Hu Hi. split; [|by apply serve_read].
    unfold initModule, dispatch. rewrite Hm, Hu.
    cbn [route_method route_path route_stack Method_eqb].
    destruct i as [|c i]; [done|]. reflexivity.
  - intros req w o ok. unfold Routes.read. prog_simpl.
    destruct (handle env (ServiceRead (promotionId req)) w) as [[e|p] w'];
      prog_simpl; intros Hin; apply list_elem_of_In in Hin; by in_trace Hin.
  - intros req w w' p Hcall. unfold Routes.read. prog_simpl.
    by rewrite Hcall.
Qed.

(** A caller without credentials reads the invalidated promotion "p0". *)
Lemma read_needs_no_permission_witness :
  http_method {| http_method := GET;
                 http_url := [js "v1"; js "promotion"; js "p0"];
                 http_authorization := None;
                 http_body := Fixtures.dia_del_padre |} = GET ∧
  serve {| http_method := GET;
           http_url := [js "v1"; js "promotion"; js "p0"];
           http_authorization := None;
           http_body := Fixtures.dia_del_padre |}
    = Some (Routes.read (Fixtures.request None (js "p0") Fixtures.dia_del_padre)) ∧
  handle (Fixtures.env_of None) (ServiceRead (js "p0")) Fixtures.two_promos
    = (inr (Fixtures.promo (js "p0") false), Fixtures.two_promos) ∧
  run (Fixtures.env_of None)
    (Routes.read (Fixtures.request None (js "p0") Fixtures.dia_del_padre))
    Fixtures.two_promos =
    {| result := inr tt;
       trace := [EvCall (ServiceRead (js "p0")) true;
                 EvRes (Json (Routes.list_item (Fixtures.promo (js "p0") false)))];
       world := Fixtures.two_promos |}.
Proof.
  split; [reflexivity|].
  split.
  { exact (proj2 (proj1 (read_needs_no_permission (Fixtures.env_of None))
                    {| http_method := GET;
                       http_url := [js "v1"; js "promotion"; js "p0"];
                       http_authorization := None;
                       http_body := Fixtures.dia_del_padre |}
                    (js "p0") eq_refl eq_refl ltac:(discriminate))). }
  split; [reflexivity|].
  exact (proj2 (proj2 (read_needs_no_permission (Fixtures.env_of None)))
           (Fixtures.request None (js "p0") Fixtures.dia_del_padre)
           Fixtures.two_promos Fixtures.two_promos
           (Fixtures.promo (js "p0") false) eq_refl).
Defined.

(** ** Trimming *)

Lemma trimStart_suffix (s : jsstring) :
  ∃ ws, s = ws ++ trimStart s.
Proof.
  induction s as [|c s [ws IH]]; [by exists []|].
  cbn. destruct (isWhiteSpace c).
  - exists (c :: ws). cbn. by f_equal.
  - by exists [].
Qed.

Lemma trimStart_head (s : jsstring) (c : N) :
  head (trimStart s) = Some c → isWhiteSpace c = false.
Proof.
  induction s as [|a s IH]; [done|].
  cbn. destruct (isWhiteSpace a) eqn:Ha; [done|].
  cbn. by intros [= <-].
Qed.

Lemma trimEnd_prefix (s : jsstring) :
  ∃ ws, s = trimEnd s ++ ws.
Proof.
  unfold trimEnd. destruct (trimStart_suffix (reverse s)) as [ws Hws].
  exists (reverse ws).
  rewrite <- reverse_app, <- Hws. by rewrite reverse_involutive.
Qed.

Lemma trimEnd_last (s : jsstring) (c : N) :
  last (trimEnd s) = Some c → isWhiteSpace c = false.
Proof.
  unfold trimEnd. rewrite last_reverse. apply trimStart_head.
Qed.

Lemma trim_no_outer_whitespace (s : jsstring) :
  no_outer_whitespace (trim s).
Proof.
  split; intros c Hc.
  - unfold trim in Hc.
    destruct (trimEnd_prefix (trimStart s)) as [ws Hws].
    destruct (trimEnd (trimStart s)) as [|a t] eqn:Ht; [done|].
    cbn in Hc. injection Hc as ->.
    apply (trimStart_head s). by rewrite Hws.
  - by apply (trimEnd_last (trimStart s)).
Qed.

Lemma stored_no_outer_whitespace (v : option jsstring) :
  no_outer_whitespace (stored v).
Proof.
  destruct v as [s|]; [apply trim_no_outer_whitespace|].
  by split.
Qed.

(** ** Documents of [PublicitySchema] *)

Lemma new_publicity_fields (caller : option jsstring) (b : Body) :
  new_publicity caller b !! "title"
    = Some (VString (stored (body_title b))) ∧
  new_publicity caller b !! "description"
    = Some (VString (stored (body_description b))) ∧
  new_publicity caller b !! "redirectLink"
    = Some (VString (stored (body_redirectLink b))) ∧
  new_publicity caller b !! "imageId"
    = Some (VString (stored (body_imageId b))) ∧
  new_publicity caller b !! "owner" = VObjectId <$> caller ∧
  new_publicity caller b !! "enabled"
    = Some (VBoolean (default true (body_enabled b))).
Proof.
  destruct b as [[t|] [ds|] [r|] [im|] [en|] [img|]], caller as [u|];
    repeat split; vm_compute; reflexivity.
Qed.

(** The typed view of a new document. *)
Lemma hydrate_new_publicity (caller : option jsstring) (b : Body)
    (i : jsstring) :
  hydrate i (new_publicity caller b) =
  {| id := i;
     title := stored (body_title b);
     description := stored (body_description b);
     redirectLink := stored (body_redirectLink b);
     imageId := stored (body_imageId b);
     owner := caller;
     enabled := default true (body_enabled b) |}.
Proof.
  destruct (new_publicity_fields caller b) as (Ht & Hd & Hr & Hi & Ho & He).
  unfold hydrate, get_string. rewrite Ht, Hd, Hr, Hi, Ho, He.
  by destruct caller.
Qed.

(** The report of a new document, path by path in schema order. *)
Lemma validate_new_publicity (caller : option jsstring) (b : Body) :
  validate PublicitySchema (new_publicity caller b) =
  (if truthy (stored (body_title b)) then [] else failure "title") ++
  (if truthy (stored (body_description b)) then [] else failure "description") ++
  (if truthy (stored (body_redirectLink b)) then []
   else failure "redirectLink") ++
  (if truthy (stored (body_imageId b)) then [] else failure "imageId") ++
  (match caller with Some _ => [] | None => failure "owner" end).
Proof.
  destruct (new_publicity_fields caller b) as (Ht & Hd & Hr & Hi & Ho & _).
  unfold validate, PublicitySchema. cbn [paths mbind list_bind].
  unfold validate_path.
  cbn [opt_required opt_type path_name].
  rewrite Ht, Hd, Hr, Hi, Ho.
  destruct (stored (body_title b)), (stored (body_description b)),
    (stored (body_redirectLink b)), (stored (body_imageId b)), caller;
    reflexivity.
Qed.

Lemma truthy_nonempty (s : jsstring) : truthy s = true ↔ s ≠ [].
Proof. by destruct s. Qed.

Lemma failure_nonempty :
  failure "title" ≠ [] ∧ failure "description" ≠ [] ∧
  failure "redirectLink" ≠ [] ∧ failure "imageId" ≠ [] ∧
  failure "owner" ≠ [].
Proof. repeat split; discriminate. Qed.

(** A new document passes validation exactly when the four trimmed texts
    are non-empty and there is an owner. *)
Lemma validate_nil_iff (caller : option jsstring) (b : Body) :
  validate PublicitySchema (new_publicity caller b) = [] ↔
  stored (body_title b) ≠ [] ∧ stored (body_description b) ≠ [] ∧
  stored (body_redirectLink b) ≠ [] ∧ stored (body_imageId b) ≠ [] ∧
  is_Some caller.
Proof.
  rewrite validate_new_publicity.
  destruct failure_nonempty as (Ft & Fd & Fr & Fi & Fo).
  destruct (stored (body_title b)) as [|? ?];
    destruct (stored (body_description b)) as [|? ?];
    destruct (stored (body_redirectLink b)) as [|? ?];
    destruct (stored (body_imageId b)) as [|? ?];
    destruct caller as [u|]; cbn [truthy];
    (split;
     [ intros Hnil; repeat (apply app_eq_nil in Hnil as [? Hnil]);
       try contradiction;
       repeat split; try discriminate; by eexists
     | intros (?&?&?&?&[? ?]); try contradiction; try discriminate;
       reflexivity ]).
Qed.

(** ** The promotion service *)

Section Service.

Variable newId : list jsstring → jsstring.
Variable imageService_create : Body → Rejection + ImageResult.
Variable caller : option jsstring.

Lemma service_create_accepts (b : Body) (w : Store.World) :
  validate PublicitySchema (new_publicity caller b) = [] →
  handle (Store.env newId imageService_create caller) (ServiceCreate b) w =
  (inr (newId (Store.ids w)),
   {| Store.roles := Store.roles w;
      Store.publicities :=
        Store.publicities w ++
        [hydrate (newId (Store.ids w)) (new_publicity caller b)] |}).
Proof.
  intros Hv. cbn [handle Store.env]. unfold Store.service_create. by rewrite Hv.
Qed.

Lemma service_create_rejects (b : Body) (w : Store.World) :
  validate PublicitySchema (new_publicity caller b) ≠ [] →
  handle (Store.env newId imageService_create caller) (ServiceCreate b) w =
  (inl (ValidationError
          {| messages := validate PublicitySchema (new_publicity caller b) |}),
   w).
Proof.
  intros Hv. cbn [handle Store.env]. unfold Store.service_create.
  destruct (validate PublicitySchema (new_publicity caller b));
    [by destruct Hv | reflexivity].
Qed.

(** A property of records that new valid documents have and that
    disabling keeps holds of every stored record, whatever is called. *)
Lemma handle_preserves (P : IPublicity → Prop) :
  (∀ p, P p → P (Store.disable p)) →
  (∀ b i, validate PublicitySchema (new_publicity caller b) = [] →
          P (hydrate i (new_publicity caller b))) →
  ∀ (o : Op) (w : Store.World),
    Forall P (Store.publicities w) →
    Forall P
      (Store.publicities
         (snd (handle (Store.env newId imageService_create caller) o w))).
Proof.
  intros Hdis Hnew o w Hw.
  destruct o as [a|uid role| |b|i|i|b]; cbn [handle Store.env].
  - unfold Store.passport. by destruct caller.
  - unfold Store.hasPermission. by case_bool_decide.
  - done.
  - unfold Store.service_create.
    destruct (validate PublicitySchema (new_publicity caller b)) eqn:Hv;
      [|done].
    cbn. apply Forall_app. split; [done|].
    apply Forall_cons. split; [by apply Hnew | done].
  - unfold Store.service_read. by destruct (List.find _ _).
  - unfold Store.service_invalidate. destruct (existsb _ _); [|done].
    cbn. apply Forall_fmap. eapply Forall_impl; [exact Hw|].
    intros p Hp. cbn. case_bool_decide; [by apply Hdis | done].
  - done.
Qed.

Lemma find_last_fresh (l : list IPublicity) (p : IPublicity) :
  id p ∉ (id <$> l) →
  List.find (λ q, bool_decide (id q = id p)) (l ++ [p]) = Some p.
Proof.
  induction l as [|q l IH]; cbn; intros Hfresh.
  - by rewrite bool_decide_eq_true_2.
  - apply not_elem_of_cons in Hfresh as [Hne Hfresh].
    rewrite bool_decide_eq_false_2 by done. by apply IH.
Qed.

End Service.

(** ** Schema invariants *)

Lemma complete_disable (p : IPublicity) :
  complete p → complete (Store.disable p).
Proof. by intros (?&?&?&?&?). Qed.

Lemma complete_new (caller : option jsstring) (b : Body) (i : jsstring) :
  validate PublicitySchema (new_publicity caller b) = [] ↔
  complete (hydrate i (new_publicity caller b)).
Proof.
  rewrite validate_nil_iff, hydrate_new_publicity. reflexivity.
Qed.

(** C3.  A document built from a request body is accepted by the schema
    exactly when its [title], [description], [redirectLink] and [imageId]
    (the trimmed texts of the body) are non-empty and it has an owner.  A
    document that misses any of them is rejected: the create operation
    reports the validation failures and leaves the collection as it was.
    So every record of the collection stays complete, whatever operation
    runs. *)
Theorem accepted_records_are_complete
    (newId : list jsstring → jsstring)
    (imageService_create : Body → Rejection + ImageResult)
    (caller : option jsstring) (b : Body) :
  (∀ i, validate PublicitySchema (new_publicity caller b) = [] ↔
        complete (hydrate i (new_publicity caller b))) ∧
  (∀ i, title (hydrate i (new_publicity caller b)) = stored (body_title b) ∧
        description (hydrate i (new_publicity caller b))
          = stored (body_description b) ∧
        redirectLink (hydrate i (new_publicity caller b))
          = stored (body_redirectLink b) ∧
        imageId (hydrate i (new_publicity caller b))
          = stored (body_imageId b) ∧
        owner (hydrate i (new_publicity caller b)) = caller) ∧
  (stored (body_title b) = [] ∨ stored (body_description b) = [] ∨
   stored (body_redirectLink b) = [] ∨ stored (body_imageId b) = [] ∨
   caller = None →
   validate PublicitySchema (new_publicity caller b) ≠ [] ∧
   ∀ w, handle (Store.env newId imageService_create caller)
          (ServiceCreate b) w =
        (inl (ValidationError
                {| messages :=
                     validate PublicitySchema (new_publicity caller b) |}),
         w)) ∧
  (∀ o w, Forall complete (Store.publicities w) →
          Forall complete
            (Store.publicities
               (snd (handle (Store.env newId imageService_create caller) o w)))).
Proof.
  split; [intros i; apply complete_new|].
  split; [intros i; by rewrite hydrate_new_publicity|].
  split.
  - intros Hmiss.
    assert (Hv : validate PublicitySchema (new_publicity caller b) ≠ []).
    { rewrite validate_nil_iff. intros (Ht & Hd & Hr & Hi & Ho).
      destruct Hmiss as [?|[?|[?|[?|Hc]]]]; try done.
      rewrite Hc in Ho. by destruct Ho. }
    split; [done|]. intros w. by apply service_create_rejects.
  - apply handle_preserves; [apply complete_disable|].
    intros b' i. apply complete_new.
Qed.

(** The scenario body has no [imageId]: it is rejected, nothing stored. *)
Lemma accepted_records_are_complete_witness :
  (stored (body_title Fixtures.dia_del_padre) = [] ∨
   stored (body_description Fixtures.dia_del_padre) = [] ∨
   stored (body_redirectLink Fixtures.dia_del_padre) = [] ∨
   stored (body_imageId Fixtures.dia_del_padre) = [] ∨
   Some Fixtures.admin_user = None) ∧
  validate PublicitySchema
    (new_publicity (Some Fixtures.admin_user) Fixtures.dia_del_padre) ≠ [] ∧
  ∀ w, handle (Fixtures.env_of (Some Fixtures.admin_user))
         (ServiceCreate Fixtures.dia_del_padre) w =
       (inl (ValidationError
               {| messages :=
                    validate PublicitySchema
                      (new_publicity (Some Fixtures.admin_user)
                         Fixtures.dia_del_padre) |}),
        w).
Proof.
  assert (Hmiss : stored (body_title Fixtures.dia_del_padre) = [] ∨
                  stored (body_description Fixtures.dia_del_padre) = [] ∨
                  stored (body_redirectLink Fixtures.dia_del_padre) = [] ∨
                  stored (body_imageId Fixtures.dia_del_padre) = [] ∨
                  Some Fixtures.admin_user = None).
  { right. right. right. left. reflexivity. }
  split; [exact Hmiss|].
  exact (proj1 (proj2 (proj2
           (accepted_records_are_complete Fixtures.gen
              (Fixtures.image_store (js "img1"))
              (Some Fixtures.admin_user) Fixtures.dia_del_padre))) Hmiss).
Defined.

Lemma trimmed_disable (p : IPublicity) :
  trimmed_record p → trimmed_record (Store.disable p).
Proof. by intros (?&?&?&?). Qed.

Lemma trimmed_new (caller : option jsstring) (b : Body) (i : jsstring) :
  trimmed_record (hydrate i (new_publicity caller b)).
Proof.
  rewrite hydrate_new_publicity.
  repeat split; cbn; apply stored_no_outer_whitespace.
Qed.

(** C9.  The [title], [description], [redirectLink] and [imageId] of a
    document built from a request body are the trimmed texts of the body:
    a supplied text is stored as its [trim], and its first and last code
    units are not whitespace.  The record the create operation appends to
    the collection is that document, and every record of the collection
    stays trimmed, whatever operation runs. *)
Theorem stored_strings_are_trimmed
    (newId : list jsstring → jsstring)
    (imageService_create : Body → Rejection + ImageResult)
    (caller : option jsstring) (b : Body) :
  (∀ i s, (body_title b = Some s →
             title (hydrate i (new_publicity caller b)) = trim s) ∧
          (body_description b = Some s →
             description (hydrate i (new_publicity caller b)) = trim s) ∧
          (body_redirectLink b = Some s →
             redirectLink (hydrate i (new_publicity caller b)) = trim s) ∧
          (body_imageId b = Some s →
             imageId (hydrate i (new_publicity caller b)) = trim s)) ∧
  (∀ s, no_outer_whitespace (trim s)) ∧
  (∀ i, trimmed_record (hydrate i (new_publicity caller b))) ∧
  (∀ w i w',
     handle (Store.env newId imageService_create caller) (ServiceCreate b) w
       = (inr i, w') →
     Store.publicities w' =
       Store.publicities w ++ [hydrate i (new_publicity caller b)]) ∧
  (∀ o w, Forall trimmed_record (Store.publicities w) →
          Forall trimmed_record
            (Store.publicities
               (snd (handle (Store.env newId imageService_create caller) o w)))).
Proof.
  split.
  { intros i s. rewrite hydrate_new_publicity. cbn.
    repeat split; by intros ->. }
  split; [apply trim_no_outer_whitespace|].
  split; [intros i; apply trimmed_new|].
  split.
  - intros w i w'. cbn [handle Store.env]. unfold Store.service_create.
    destruct (validate PublicitySchema (new_publicity caller b)); [|done].
    by intros [= <- <-].
  - apply handle_preserves; [apply trimmed_disable|].
    intros b' i _. apply trimmed_new.
Qed.

(** A title with blanks around it is stored without them. *)
Lemma stored_strings_are_trimmed_witness :
  body_title Fixtures.dia_del_padre_image = Some (js "  Dia del Padre ") ∧
  title (hydrate (js "p")
           (new_publicity (Some Fixtures.admin_user)
              Fixtures.dia_del_padre_image))
    = trim (js "  Dia del Padre ") ∧
  trim (js "  Dia del Padre ") = js "Dia del Padre".
Proof.
  split; [reflexivity|]. split; [|reflexivity].
  exact (proj1 (proj1 (stored_strings_are_trimmed Fixtures.gen
                         (Fixtures.image_store (js "img1"))
                         (Some Fixtures.admin_user)
                         Fixtures.dia_del_padre_image)
                  (js "p") (js "  Dia del Padre ")) eq_refl).
Defined.

(** ** Listing *)

Lemma elem_of_filter_enabled (l : list IPublicity) (p : IPublicity) :
  p ∈ List.filter enabled l ↔ p ∈ l ∧ enabled p = true.
Proof. rewrite !list_elem_of_In. apply filter_In. Qed.

(** C4.  [list()] resolves to exactly the stored promotions that have
    [enabled=true]: a stored promotion with [enabled=false] is never among
    them, and the [list] handler responds with their projections.  Once a
    promotion has been invalidated, no listed record carries its id. *)
Theorem list_returns_enabled_only
    (newId : list jsstring → jsstring)
    (imageService_create : Body → Rejection + ImageResult)
    (caller : option jsstring) (req : ISessionRequest) (w : Store.World) :
  ∃ items,
    handle (Store.env newId imageService_create caller) ServiceList w
      = (inr items, w) ∧
    (∀ p, p ∈ items ↔ p ∈ Store.publicities w ∧ enabled p = true) ∧
    (∀ p, p ∈ Store.publicities w → enabled p = false → p ∉ items) ∧
    run (Store.env newId imageService_create caller) (Routes.list req) w =
      {| result := inr tt;
         trace := [EvCall ServiceList true;
                   EvRes (JsonArray (Routes.list_item <$> items))];
         world := w |} ∧
    (∀ i w' items',
       handle (Store.env newId imageService_create caller)
         (ServiceInvalidate i) w = (inr tt, w') →
       handle (Store.env newId imageService_create caller) ServiceList w'
         = (inr items', w') →
       ∀ p, p ∈ items' → id p ≠ i).
Proof.
  exists (List.filter enabled (Store.publicities w)).
  split; [reflexivity|].
  split; [intros p; apply elem_of_filter_enabled|].
  split.
  { intros p _ Hoff Hin. apply elem_of_filter_enabled in Hin as [_ Hon].
    congruence. }
  split; [reflexivity|].
  intros i w' items'. cbn [handle Store.env].
  unfold Store.service_invalidate, Store.service_list.
  destruct (existsb _ _); [|done].
  intros [= <-] [= <-] p Hin. cbn in Hin.
  apply elem_of_filter_enabled in Hin as [Hin Hon].
  apply list_elem_of_fmap in Hin as (q & -> & _).
  case_bool_decide as Hq; [done|]. exact Hq.
Qed.

(** Of the two stored promotions, the invalidated one is not listed. *)
Lemma list_returns_enabled_only_witness :
  Fixtures.promo (js "p0") false ∈ Store.publicities Fixtures.two_promos ∧
  enabled (Fixtures.promo (js "p0") false) = false ∧
  ∃ items,
    handle (Fixtures.env_of None) ServiceList Fixtures.two_promos
      = (inr items, Fixtures.two_promos) ∧
    Fixtures.promo (js "p0") false ∉ items.
Proof.
  assert (Hin : Fixtures.promo (js "p0") false
                  ∈ Store.publicities Fixtures.two_promos).
  { apply list_elem_of_In. right. left. reflexivity. }
  split; [exact Hin|]. split; [reflexivity|].
  destruct (list_returns_enabled_only Fixtures.gen
              (Fixtures.image_store (js "img1")) None
              (Fixtures.request None [] Fixtures.dia_del_padre)
              Fixtures.two_promos) as (items & Hcall & _ & Hoff & _).
  exists items. split; [exact Hcall|].
  exact (Hoff (Fixtures.promo (js "p0") false) Hin eq_refl).
Defined.

(** ** Creating and reading back *)

Lemma hasPermission_granted
    (newId : list jsstring → jsstring)
    (imageService_create : Body → Rejection + ImageResult)
    (caller : option jsstring) (u role : jsstring) (w : Store.World) :
  (u, role) ∈ Store.roles w →
  handle (Store.env newId imageService_create caller)
    (UserHasPermission u role) w = (inr tt, w).
Proof.
  intros Hin. cbn [handle Store.env]. unfold Store.hasPermission.
  by rewrite bool_decide_eq_true_2.
Qed.

(** C8, as stated, fails on the code: the scenario's create (an
    administrator, non-empty title, description and redirectLink, no
    imageId) does not succeed.  The schema requires [imageId], so the
    create is rejected with the report of that path and nothing is
    stored; no response carrying an id is written. *)
Lemma create_without_image_is_rejected :
  (Fixtures.admin_user, js "admin") ∈ Store.roles Fixtures.empty_world ∧
  body_imageId Fixtures.dia_del_padre = None ∧
  stored (body_title Fixtures.dia_del_padre) ≠ [] ∧
  stored (body_description Fixtures.dia_del_padre) ≠ [] ∧
  stored (body_redirectLink Fixtures.dia_del_padre) ≠ [] ∧
  run (Fixtures.env_of (Some Fixtures.admin_user))
    (Routes.create (Fixtures.request (Some Fixtures.admin_user) []
                      Fixtures.dia_del_padre))
    Fixtures.empty_world =
    {| result :=
         inl (ValidationError
                {| messages :=
                     [{| path := "imageId";
                         message :=
                           js "Toda publicidad debe tener una image que la represente." |}] |});
       trace := [EvLog (LogString (js "request body"));
                 EvLog (LogBody Fixtures.dia_del_padre);
                 EvCall (UserHasPermission Fixtures.admin_user (js "admin")) true;
                 EvCall (ServiceCreate Fixtures.dia_del_padre) false];
       world := Fixtures.empty_world |} ∧
  ¬ (∃ i, result (run (Fixtures.env_of (Some Fixtures.admin_user))
                    (Routes.create (Fixtures.request (Some Fixtures.admin_user) []
                                      Fixtures.dia_del_padre))
                    Fixtures.empty_world) = inr tt ∧
          EvRes (Json {[ "id" := i ]})
            ∈ trace (run (Fixtures.env_of (Some Fixtures.admin_user))
                       (Routes.create (Fixtures.request (Some Fixtures.admin_user) []
                                         Fixtures.dia_del_padre))
                       Fixtures.empty_world)).
Proof.
  split; [apply list_elem_of_In; left; reflexivity|].
  split; [reflexivity|].
  split; [discriminate|]. split; [discriminate|]. split; [discriminate|].
  assert (Hrun : run (Fixtures.env_of (Some Fixtures.admin_user))
    (Routes.create (Fixtures.request (Some Fixtures.admin_user) []
                      Fixtures.dia_del_padre))
    Fixtures.empty_world =
    {| result :=
         inl (ValidationError
                {| messages :=
                     [{| path := "imageId";
                         message :=
                           js "Toda publicidad debe tener una image que la represente." |}] |});
       trace := [EvLog (LogString (js "request body"));
                 EvLog (LogBody Fixtures.dia_del_padre);
                 EvCall (UserHasPermission Fixtures.admin_user (js "admin")) true;
                 EvCall (ServiceCreate Fixtures.dia_del_padre) false];
       world := Fixtures.empty_world |}).
  { vm_compute. reflexivity. }
  split; [exact Hrun|].
  rewrite Hrun. cbn [result]. by intros (i & Hres & _).
Qed.

Lemma validate_only_image (u : jsstring) (b : Body) :
  stored (body_title b) ≠ [] →
  stored (body_description b) ≠ [] →
  stored (body_redirectLink b) ≠ [] →
  stored (body_imageId b) = [] →
  validate PublicitySchema (new_publicity (Some u) b) = failure "imageId".
Proof.
  intros Ht Hd Hr Hi. rewrite validate_new_publicity, Hi.
  apply truthy_nonempty in Ht, Hd, Hr. rewrite Ht, Hd, Hr.
  reflexivity.
Qed.

(** C8, amended.  For a create by an administrator whose input supplies
    non-empty (after trimming) title, description and redirectLink:
    without an [imageId] (absent, or blank after trimming) the create is
    rejected with the ValidationError report holding exactly the
    [imageId] entry, nothing is stored and no response is written; with a
    non-empty [imageId] (and a fresh generated id) the create succeeds and
    responds with the generated id, and a subsequent read of that id, by
    any caller, responds with the id and the trimmed title, description,
    redirectLink and imageId. *)
Theorem create_needs_image_and_reads_back
    (newId : list jsstring → jsstring)
    (imageService_create : Body → Rejection + ImageResult)
    (u : jsstring) (b : Body) (w : Store.World) (pid : jsstring) :
  (u, js "admin") ∈ Store.roles w →
  stored (body_title b) ≠ [] →
  stored (body_description b) ≠ [] →
  stored (body_redirectLink b) ≠ [] →
  let out := run (Store.env newId imageService_create (Some u))
               (Routes.create {| user := Some {| user_id := u |};
                                 promotionId := pid; body := b |}) w in
  (stored (body_imageId b) = [] →
     result out = inl (ValidationError {| messages := failure "imageId" |}) ∧
     world out = w ∧
     ∀ r, EvRes r ∉ trace out) ∧
  (stored (body_imageId b) ≠ [] →
     newId (Store.ids w) ∉ Store.ids w →
     result out = inr tt ∧
     last (trace out) = Some (EvRes (Json {[ "id" := newId (Store.ids w) ]})) ∧
     ∀ (reader : option jsstring) (req : ISessionRequest),
       promotionId req = newId (Store.ids w) →
       run (Store.env newId imageService_create reader) (Routes.read req)
         (world out) =
         {| result := inr tt;
            trace := [EvCall (ServiceRead (newId (Store.ids w))) true;
                      EvRes (Json {[ "id" := newId (Store.ids w);
                                     "title" := stored (body_title b);
                                     "description" := stored (body_description b);
                                     "redirectLink" := stored (body_redirectLink b);
                                     "imageId" := stored (body_imageId b) ]})];
            world := world out |}).
Proof.
  intros Hadmin Ht Hd Hr out. subst out.
  unfold Routes.create. prog_simpl. cbn [user user_id body]. prog_simpl.
  rewrite (hasPermission_granted newId imageService_create (Some u) u
             (js "admin") w Hadmin).
  prog_simpl. split.
  - intros Hi.
    pose proof (validate_only_image u b Ht Hd Hr Hi) as Hv.
    rewrite service_create_rejects by (rewrite Hv; discriminate).
    rewrite Hv.
    cbn [result world trace]. split; [done|]. split; [done|].
    intros r Hin. apply list_elem_of_In in Hin. in_trace Hin.
  - intros Hi Hfresh.
    assert (Hv : validate PublicitySchema (new_publicity (Some u) b) = []).
    { apply validate_nil_iff. repeat split; try done; by eexists. }
    rewrite (service_create_accepts newId imageService_create (Some u) b w Hv).
    prog_simpl. split; [done|]. split; [done|].
    intros reader req Hreq. unfold Routes.read. prog_simpl. rewrite Hreq.
    cbn [handle Store.env]. unfold Store.service_read.
    cbn [Store.publicities].
    pose (p := hydrate (newId (Store.ids w)) (new_publicity (Some u) b)).
    assert (Hfind : List.find (λ q, bool_decide (id q = newId (Store.ids w)))
                      (Store.publicities w ++ [p]) = Some p).
    { apply (find_last_fresh (Store.publicities w) p). exact Hfresh. }
    fold p. rewrite Hfind. prog_simpl.
    unfold p. by rewrite hydrate_new_publicity.
Qed.

(** The scenario body with an image identifier, created by the
    administrator in an empty collection and read back without
    credentials. *)
Lemma create_needs_image_and_reads_back_witness :
  (Fixtures.admin_user, js "admin") ∈ Store.roles Fixtures.empty_world ∧
  stored (body_title Fixtures.dia_del_padre_image) ≠ [] ∧
  stored (body_description Fixtures.dia_del_padre_image) ≠ [] ∧
  stored (body_redirectLink Fixtures.dia_del_padre_image) ≠ [] ∧
  stored (body_imageId Fixtures.dia_del_padre_image) ≠ [] ∧
  (Fixtures.gen (Store.ids Fixtures.empty_world)
     ∉ Store.ids Fixtures.empty_world) ∧
  result (run (Fixtures.env_of (Some Fixtures.admin_user))
            (Routes.create (Fixtures.request (Some Fixtures.admin_user) []
                              Fixtures.dia_del_padre_image))
            Fixtures.empty_world) = inr tt ∧
  run (Fixtures.env_of None)
    (Routes.read (Fixtures.request None (js "p") Fixtures.dia_del_padre))
    (world (run (Fixtures.env_of (Some Fixtures.admin_user))
              (Routes.create (Fixtures.request (Some Fixtures.admin_user) []
                                Fixtures.dia_del_padre_image))
              Fixtures.empty_world)) =
    {| result := inr tt;
       trace := [EvCall (ServiceRead (js "p")) true;
                 EvRes (Json {[ "id" := js "p";
                                "title" := js "Dia del Padre";
                                "description" := js "...";
                                "redirectLink" := js "http://x";
                                "imageId" := js "img1" ]})];
       world := {| Store.roles := [(Fixtures.admin_user, js "admin")];
                   Store.publicities :=
                     [Fixtures.promo (js "p") true] |} |}.
Proof.
  assert (Hadmin : (Fixtures.admin_user, js "admin")
                     ∈ Store.roles Fixtures.empty_world).
  { apply list_elem_of_In. left. reflexivity. }
  assert (Hfresh : Fixtures.gen (Store.ids Fixtures.empty_world)
                     ∉ Store.ids Fixtures.empty_world).
  { intros Hin. apply list_elem_of_In in Hin. exact Hin. }
  assert (Ht : stored (body_title Fixtures.dia_del_padre_image) ≠ [])
    by discriminate.
  assert (Hd : stored (body_description Fixtures.dia_del_padre_image) ≠ [])
    by discriminate.
  assert (Hr : stored (body_redirectLink Fixtures.dia_del_padre_image) ≠ [])
    by discriminate.
  assert (Hi : stored (body_imageId Fixtures.dia_del_padre_image) ≠ [])
    by discriminate.
  repeat (split; [assumption|]).
  destruct (proj2 (create_needs_image_and_reads_back Fixtures.gen
                     (Fixtures.image_store (js "img1")) Fixtures.admin_user
                     Fixtures.dia_del_padre_image Fixtures.empty_world []
                     Hadmin Ht Hd Hr) Hi Hfresh) as (Hres & _ & Hread).
  split; [exact Hres|].
  exact (Hread None (Fixtures.request None (js "p") Fixtures.dia_del_padre)
           eq_refl).
Defined.

(** * Further properties of the handlers *)

(** Case analysis on every awaited call of a run. *)
Ltac run_cases :=
  repeat (prog_simpl;
          match goal with
          | |- context [handle ?env ?o ?w] =>
              let Hcall := fresh "Hcall" in
              destruct (handle env o w) as [[?|?] ?] eqn:Hcall
          end);
  prog_simpl.

Lemma registered_cases (h : ISessionRequest → Prog unit) :
  registered h →
  h = Routes.list ∨ h = Routes.create ∨ h = Routes.read ∨
  h = Routes.remove ∨ h = Routes.updatePromotionPicture.
Proof.
  intros (rt & Hrt & Hh).
  apply list_elem_of_In in Hrt. cbn in Hrt.
  destruct Hrt as [<-|[<-|[<-|[<-|[<-|Hrt]]]]]; [| | | | |contradiction];
    apply list_elem_of_In in Hh; cbn in Hh;
    repeat (destruct Hh as [Hh|Hh]; [try discriminate Hh|]);
    try contradiction; injection Hh as <-; tauto.
Qed.

(** X1.  Every handler registered by [initModule] writes a response
    exactly when it resolves: a resolved run wrote one response, as its
    last event, and a rejected run wrote none. *)
Theorem response_iff_resolved {W} (env : Env W)
    (h : ISessionRequest → Prog unit) (req : ISessionRequest) (w : W) :
  registered h →
  (result (run env (h req) w) = inr tt →
     ∃ r, responses (trace (run env (h req) w)) = [r] ∧
          last (trace (run env (h req) w)) = Some (EvRes r)) ∧
  (∀ e, result (run env (h req) w) = inl e →
        responses (trace (run env (h req) w)) = []).
Proof.
  intros Hreg.
  destruct (registered_cases h Hreg) as [-> | [-> | [-> | [-> | ->]]]].
  - unfold Routes.list. run_cases; split; try done; by eexists.
  - unfold Routes.create. prog_simpl.
    destruct (user req) as [u|]; [|by split].
    run_cases; split; try done; by eexists.
  - unfold Routes.read. run_cases; split; try done; by eexists.
  - unfold Routes.remove.
    destruct (user req) as [u|]; [|by split].
    run_cases; split; try done; by eexists.
  - destruct (handle env (ImageServiceCreate (body req)) w)
      as [[e|r] w'] eqn:Hcall.
    + rewrite (updatePromotionPicture_rejected env req w w' e Hcall).
      by split.
    + rewrite (updatePromotionPicture_resolved env req w w' r Hcall).
      destruct (image_id r); cbn; split; try done; by eexists.
Qed.

(** The administrator creates the scenario's promotion with an image: one
    response, carrying the new id, ends the trace. *)
Lemma response_iff_resolved_witness :
  registered Routes.create ∧
  result (run (Fixtures.env_of (Some Fixtures.admin_user))
            (Routes.create (Fixtures.request (Some Fixtures.admin_user) []
                              Fixtures.dia_del_padre_image))
            Fixtures.empty_world) = inr tt ∧
  ∃ r, responses
         (trace (run (Fixtures.env_of (Some Fixtures.admin_user))
                   (Routes.create (Fixtures.request (Some Fixtures.admin_user) []
                                     Fixtures.dia_del_padre_image))
                   Fixtures.empty_world)) = [r] ∧
       last (trace (run (Fixtures.env_of (Some Fixtures.admin_user))
                      (Routes.create (Fixtures.request (Some Fixtures.admin_user) []
                                        Fixtures.dia_del_padre_image))
                      Fixtures.empty_world)) = Some (EvRes r).
Proof.
  assert (Hreg : registered Routes.create).
  { eexists. split; [apply list_elem_of_In; right; left; reflexivity|].
    apply list_elem_of_In. right. left. reflexivity. }
  assert (Hres : result (run (Fixtures.env_of (Some Fixtures.admin_user))
            (Routes.create (Fixtures.request (Some Fixtures.admin_user) []
                              Fixtures.dia_del_padre_image))
            Fixtures.empty_world) = inr tt).
  { vm_compute. reflexivity. }
  split; [exact Hreg|]. split; [exact Hres|].
  exact (proj1 (response_iff_resolved
                  (Fixtures.env_of (Some Fixtures.admin_user)) Routes.create
                  (Fixtures.request (Some Fixtures.admin_user) []
                     Fixtures.dia_del_padre_image)
                  Fixtures.empty_world Hreg) Hres).
Defined.

(** The calls of [create] and [remove], in order. *)
Lemma create_remove_calls {W} (env : Env W)
    (req : ISessionRequest) (w : W) :
  calls (trace (run env (Routes.create req) w))
    `prefix_of` match user req with
                | Some u => [UserHasPermission (user_id u) (js "admin");
                             ServiceCreate (body req)]
                | None => []
                end ∧
  calls (trace (run env (Routes.remove req) w))
    `prefix_of` match user req with
                | Some u => [UserHasPermission (user_id u) (js "admin");
                             ServiceInvalidate (promotionId req)]
                | None => []
                end ∧
  (user req = None →
     result (run env (Routes.create req) w) = inl TypeError ∧
     world (run env (Routes.create req) w) = w ∧
     run env (Routes.remove req) w =
       {| result := inl TypeError; trace := []; world := w |}).
Proof.
  unfold Routes.create, Routes.remove. prog_simpl.
  destruct (user req) as [u|].
  - split; [|split; [|done]].
    + run_cases; cbn; [by eexists [_]|by exists []|by exists []].
    + run_cases; cbn; [by eexists [_]|by exists []|by exists []].
  - by repeat split.
Qed.

(** X2.  [create] and [remove] make at most two calls, in this order: the
    "admin" check for the request's user, then one mutation, given
    [req.body] (create) or [req.params.promotionId] (remove) as they are.
    Called without a session user, they make no call at all and are
    rejected with a TypeError, the world untouched. *)
Theorem mutation_called_at_most_once {W} (env : Env W)
    (req : ISessionRequest) (w : W) :
  calls (trace (run env (Routes.create req) w))
    `prefix_of` match user req with
                | Some u => [UserHasPermission (user_id u) (js "admin");
                             ServiceCreate (body req)]
                | None => []
                end ∧
  calls (trace (run env (Routes.remove req) w))
    `prefix_of` match user req with
                | Some u => [UserHasPermission (user_id u) (js "admin");
                             ServiceInvalidate (promotionId req)]
                | None => []
                end ∧
  (user req = None →
     result (run env (Routes.create req) w) = inl TypeError ∧
     world (run env (Routes.create req) w) = w ∧
     run env (Routes.remove req) w =
       {| result := inl TypeError; trace := []; world := w |}).
Proof. apply create_remove_calls. Qed.

(** Without a session user nothing is called. *)
Lemma mutation_called_at_most_once_witness :
  user (Fixtures.request None (js "p") Fixtures.dia_del_padre_image) = None ∧
  result (run (Fixtures.env_of None)
            (Routes.create (Fixtures.request None (js "p")
                              Fixtures.dia_del_padre_image))
            Fixtures.two_promos) = inl TypeError ∧
  world (run (Fixtures.env_of None)
           (Routes.create (Fixtures.request None (js "p")
                             Fixtures.dia_del_padre_image))
           Fixtures.two_promos) = Fixtures.two_promos ∧
  run (Fixtures.env_of None)
    (Routes.remove (Fixtures.request None (js "p")
                      Fixtures.dia_del_padre_image))
    Fixtures.two_promos =
    {| result := inl TypeError; trace := []; world := Fixtures.two_promos |}.
Proof.
  split; [reflexivity|].
  exact (proj2 (proj2 (mutation_called_at_most_once (Fixtures.env_of None)
                         (Fixtures.request None (js "p")
                            Fixtures.dia_del_padre_image)
                         Fixtures.two_promos)) eq_refl).
Defined.

(** X3.  [list] makes exactly one call, [service.list]: it checks no
    permission and reads nothing of the request.  A rejection of that
    call is the handler's rejection, and nothing is written. *)
Theorem list_calls_service_only {W} (env : Env W)
    (req : ISessionRequest) (w : W) :
  calls (trace (run env (Routes.list req) w)) = [ServiceList] ∧
  (∀ req', run env (Routes.list req') w = run env (Routes.list req) w) ∧
  (∀ e w', handle env ServiceList w = (inl e, w') →
     run env (Routes.list req) w =
       {| result := inl e; trace := [EvCall ServiceList false];
          world := w' |}).
Proof.
  unfold Routes.list. split; [by run_cases|]. split; [done|].
  intros e w' Hcall. prog_simpl. by rewrite Hcall.
Qed.

(** The promotion service is down: [list] fails with its failure. *)
Lemma list_calls_service_only_witness :
  handle unreachable_env ServiceList tt = (inl (CollaboratorFailure 503), tt) ∧
  run unreachable_env
    (Routes.list (Fixtures.request None [] Fixtures.dia_del_padre)) tt =
    {| result := inl (CollaboratorFailure 503);
       trace := [EvCall ServiceList false];
       world := tt |}.
Proof.
  split; [reflexivity|].
  exact (proj2 (proj2 (list_calls_service_only unreachable_env
                         (Fixtures.request None [] Fixtures.dia_del_padre) tt))
           (CollaboratorFailure 503) tt eq_refl).
Defined.

(** X4.  A response of [create] or [remove] is evidence that the "admin"
    check of the request's user resolved and that the mutation resolved
    after it: [create] then responds [{id}] with the id the service
    returned, [remove] with an empty body, and the run ends in the world
    the mutation left. *)
Theorem response_means_mutation_done {W} (env : Env W)
    (req : ISessionRequest) (w : W) (r : Response) :
  (EvRes r ∈ trace (run env (Routes.create req) w) →
   ∃ u w1 i w2,
     user req = Some u ∧
     handle env (UserHasPermission (user_id u) (js "admin")) w = (inr tt, w1) ∧
     handle env (ServiceCreate (body req)) w1 = (inr i, w2) ∧
     r = Json {[ "id" := i ]} ∧
     world (run env (Routes.create req) w) = w2) ∧
  (EvRes r ∈ trace (run env (Routes.remove req) w) →
   ∃ u w1 w2,
     user req = Some u ∧
     handle env (UserHasPermission (user_id u) (js "admin")) w = (inr tt, w1) ∧
     handle env (ServiceInvalidate (promotionId req)) w1 = (inr tt, w2) ∧
     r = Send ∧
     world (run env (Routes.remove req) w) = w2).
Proof.
  unfold Routes.create, Routes.remove. prog_simpl.
  destruct (user req) as [u|]; prog_simpl.
  - split.
    + destruct (handle env (UserHasPermission (user_id u) (js "admin")) w)
        as [[e|[]] w1] eqn:Hcheck; prog_simpl;
        [intros Hin; apply list_elem_of_In in Hin; in_trace Hin|].
      destruct (handle env (ServiceCreate (body req)) w1)
        as [[e|i] w2] eqn:Hmut; prog_simpl;
        intros Hin; apply list_elem_of_In in Hin; in_trace Hin.
      injection Hin as <-. by exists u, w1, i, w2.
    + destruct (handle env (UserHasPermission (user_id u) (js "admin")) w)
        as [[e|[]] w1] eqn:Hcheck; prog_simpl;
        [intros Hin; apply list_elem_of_In in Hin; in_trace Hin|].
      destruct (handle env (ServiceInvalidate (promotionId req)) w1)
        as [[e|[]] w2] eqn:Hmut; prog_simpl;
        intros Hin; apply list_elem_of_In in Hin; in_trace Hin.
      injection Hin as <-. by exists u, w1, w2.
  - split; intros Hin; apply list_elem_of_In in Hin; in_trace Hin.
Qed.

(** The administrator deletes the listed promotion "p": the empty-bodied
    response was written, so check and invalidation both resolved. *)
Lemma response_means_mutation_done_witness :
  EvRes Send
    ∈ trace (run (Fixtures.env_of (Some Fixtures.admin_user))
               (Routes.remove (Fixtures.request (Some Fixtures.admin_user)
                                 (js "p") Fixtures.dia_del_padre))
               Fixtures.two_promos) ∧
  ∃ u w1 w2,
    user (Fixtures.request (Some Fixtures.admin_user) (js "p")
            Fixtures.dia_del_padre) = Some u ∧
    handle (Fixtures.env_of (Some Fixtures.admin_user))
      (UserHasPermission (user_id u) (js "admin")) Fixtures.two_promos
      = (inr tt, w1) ∧
    handle (Fixtures.env_of (Some Fixtures.admin_user))
      (ServiceInvalidate
         (promotionId (Fixtures.request (Some Fixtures.admin_user) (js "p")
                         Fixtures.dia_del_padre))) w1 = (inr tt, w2) ∧
    Send = Send ∧
    world (run (Fixtures.env_of (Some Fixtures.admin_user))
             (Routes.remove (Fixtures.request (Some Fixtures.admin_user)
                               (js "p") Fixtures.dia_del_padre))
             Fixtures.two_promos) = w2.
Proof.
  assert (Hin : EvRes Send
    ∈ trace (run (Fixtures.env_of (Some Fixtures.admin_user))
               (Routes.remove (Fixtures.request (Some Fixtures.admin_user)
                                 (js "p") Fixtures.dia_del_padre))
               Fixtures.two_promos)).
  { apply list_elem_of_In. right. right. left. reflexivity. }
  split; [exact Hin|].
  exact (proj2 (response_means_mutation_done
                  (Fixtures.env_of (Some Fixtures.admin_user))
                  (Fixtures.request (Some Fixtures.admin_user) (js "p")
                     Fixtures.dia_del_padre)
                  Fixtures.two_promos Send) Hin).
Defined.

(** * Further properties of the route table *)

Lemma dispatch_resolution (r : HttpRequest) :
  dispatch initModule r = resolution r.
Proof.
  unfold resolution, dispatch, initModule, matches_literal.
  cbn [route_method route_path route_stack].
  destruct (http_method r), (http_url r) as [|a [|b [|i [|j rest]]]];
    cbn [Method_eqb match_path]; try reflexivity;
    repeat (case_bool_decide; cbn [andb fmap option_fmap option_map]);
    try reflexivity;
    destruct (truthy i); try reflexivity.
Qed.

(** The shapes of the requests the route table resolves. *)
Lemma dispatch_shape (r : HttpRequest)
    (stack : list Middleware) (ps : gmap string jsstring) :
  dispatch initModule r = Some (stack, ps) →
  (∃ a b rest,
     http_url r = a :: b :: rest ∧
     matches_literal a "v1" = true ∧ matches_literal b "promotion" = true ∧
     ((rest = [] ∧ http_method r = GET ∧ ps = ∅ ∧
       stack = [onlyLoggedIn; Handler Routes.list]) ∨
      (rest = [] ∧ http_method r = POST ∧ ps = ∅ ∧
       stack = [onlyLoggedIn; Handler Routes.create]) ∨
      (∃ i, rest = [i] ∧ i ≠ [] ∧ http_method r = GET ∧
            ps = {[ "promotionId" := i ]} ∧
            stack = [Handler Routes.read]) ∨
      (∃ i, rest = [i] ∧ i ≠ [] ∧ http_method r = DELETE ∧
            ps = {[ "promotionId" := i ]} ∧
            stack = [onlyLoggedIn; Handler Routes.remove]) ∨
      (∃ i, rest = [i] ∧ matches_literal i "picture" = true ∧
            http_method r = POST ∧ ps = ∅ ∧
            stack = [onlyLoggedIn; Handler Routes.updatePromotionPicture]))) ∧
  (stack = [Handler Routes.read] ∨
   ∃ h, stack = [onlyLoggedIn; Handler h]).
Proof.
  rewrite dispatch_resolution. unfold resolution.
  destruct (http_url r) as [|a [|b [|i [|j rest]]]]; try done.
  - destruct (matches_literal a "v1") eqn:Ha; [|done].
    destruct (matches_literal b "promotion") eqn:Hb; [|done].
    cbn [andb]. destruct (http_method r) eqn:Hm; intros [= <- <-].
    + split; [|right; by eexists]. exists a, b, []. tauto.
    + split; [|right; by eexists]. exists a, b, []. tauto.
  - destruct (matches_literal a "v1") eqn:Ha; [|done].
    destruct (matches_literal b "promotion") eqn:Hb; [|done].
    cbn [andb]. destruct (http_method r) eqn:Hm.
    + destruct i as [|c i]; [done|]. intros [= <- <-].
      split; [|by left]. exists a, b, [c :: i].
      do 3 (split; [done|]). right. right. left. by exists (c :: i).
    + destruct (matches_literal i "picture") eqn:Hi; [|done].
      intros [= <- <-].
      split; [|right; by eexists]. exists a, b, [i].
      do 3 (split; [done|]). right. right. right. right. by exists i.
    + destruct i as [|c i]; [done|]. intros [= <- <-].
      split; [|right; by eexists]. exists a, b, [c :: i].
      do 3 (split; [done|]). right. right. right. left. by exists (c :: i).
Qed.



(** X6.  The word "picture" is special for POST only.  A POST on
    [/v1/promotion/<x>] is served exactly when [<x>] is "picture" (letter
    case aside), by the upload handler: the [:promotionId] route
    registered before it does not capture it.  A GET or DELETE on
    [/v1/promotion/picture] is a read or a removal of the promotion whose
    id is "picture". *)
Theorem picture_path_by_method (r : HttpRequest) (a b i : jsstring) :
  http_url r = [a; b; i] →
  matches_literal a "v1" = true →
  matches_literal b "promotion" = true →
  (http_method r = POST →
     (is_Some (dispatch initModule r) ↔ matches_literal i "picture" = true) ∧
     (matches_literal i "picture" = true →
        dispatch initModule r
          = Some ([onlyLoggedIn; Handler Routes.updatePromotionPicture], ∅))) ∧
  (matches_literal i "picture" = true →
     (http_method r = GET →
        dispatch initModule r
          = Some ([Handler Routes.read], {[ "promotionId" := i ]})) ∧
     (http_method r = DELETE →
        dispatch initModule r
          = Some ([onlyLoggedIn; Handler Routes.remove],
                  {[ "promotionId" := i ]}))).
Proof.
  intros Hu Ha Hb. rewrite dispatch_resolution. unfold resolution.
  rewrite Hu, Ha, Hb. cbn [andb]. split.
  - intros ->. destruct (matches_literal i "picture").
    + split; [|done]. split; [done|by eexists].
    + split; [|done]. split; [by intros [? ?]|done].
  - intros Hi.
    assert (Hne : truthy i = true).
    { destruct i; [|done]. by vm_compute in Hi. }
    split; intros ->; by rewrite Hne.
Qed.

(** [GET /v1/promotion/picture] is a read of the id "picture". *)
Lemma picture_path_by_method_witness :
  http_url {| http_method := GET;
              http_url := [js "v1"; js "promotion"; js "picture"];
              http_authorization := None;
              http_body := Fixtures.dia_del_padre |}
    = [js "v1"; js "promotion"; js "picture"] ∧
  matches_literal (js "picture") "picture" = true ∧
  dispatch initModule
    {| http_method := GET;
       http_url := [js "v1"; js "promotion"; js "picture"];
       http_authorization := None;
       http_body := Fixtures.dia_del_padre |}
    = Some ([Handler Routes.read], {[ "promotionId" := js "picture" ]}).
Proof.
  split; [reflexivity|]. split; [reflexivity|].
  exact (proj1 (proj2 (picture_path_by_method
                         {| http_method := GET;
                            http_url := [js "v1"; js "promotion"; js "picture"];
                            http_authorization := None;
                            http_body := Fixtures.dia_del_padre |}
                         (js "v1") (js "promotion") (js "picture")
                         eq_refl eq_refl eq_refl) eq_refl) eq_refl).
Defined.

(** X7.  On every route but the one of [read], the session middleware
    runs first.  When it ends the request, that is all that happens: the
    handler is not entered, no collaborator is called, nothing is logged
    or written.  When it lets the request through, the handler runs next,
    in the world the middleware left, with [req.user] the session the
    middleware supplied. *)
Theorem session_middleware_first {W} (env : Env W) (r : HttpRequest)
    (stack : list Middleware) (ps : gmap string jsstring) (w : W) :
  dispatch initModule r = Some (stack, ps) →
  stack ≠ [Handler Routes.read] →
  ∃ h p,
    stack = [onlyLoggedIn; Handler h] ∧
    serve r = Some p ∧
    (∀ e w',
       handle env (OnlyLoggedIn (http_authorization r)) w = (inl e, w') →
       run env p w =
         {| result := inl e;
            trace := [EvCall (OnlyLoggedIn (http_authorization r)) false];
            world := w' |}) ∧
    (∀ s w',
       handle env (OnlyLoggedIn (http_authorization r)) w = (inr s, w') →
       run env p w =
         after (EvCall (OnlyLoggedIn (http_authorization r)) true)
           (run env (h {| user := Some s;
                          promotionId := default [] (ps !! "promotionId");
                          body := http_body r |}) w')).
Proof.
  intros Hd Hne.
  destruct (proj2 (dispatch_shape r stack ps Hd)) as [?|[h ->]]; [done|].
  exists h. eexists. split; [done|].
  split; [unfold serve; rewrite Hd; reflexivity|].
  cbn [run_stack promotionId body]. prog_simpl.
  split; intros ? w' Hcall; by rewrite Hcall.
Qed.

(** A POST on the collection without a session: the middleware ends the
    request and nothing else runs. *)
Lemma session_middleware_first_witness :
  dispatch initModule
    {| http_method := POST; http_url := [js "v1"; js "promotion"];
       http_authorization := None;
       http_body := Fixtures.dia_del_padre_image |}
    = Some ([onlyLoggedIn; Handler Routes.create], ∅) ∧
  [onlyLoggedIn; Handler Routes.create] ≠ [Handler Routes.read] ∧
  handle (Fixtures.env_of None) (OnlyLoggedIn None) Fixtures.two_promos
    = (inl Unauthorized, Fixtures.two_promos) ∧
  ∃ p,
    serve {| http_method := POST; http_url := [js "v1"; js "promotion"];
             http_authorization := None;
             http_body := Fixtures.dia_del_padre_image |} = Some p ∧
    run (Fixtures.env_of None) p Fixtures.two_promos =
      {| result := inl Unauthorized;
         trace := [EvCall (OnlyLoggedIn None) false];
         world := Fixtures.two_promos |}.
Proof.
  assert (Hd : dispatch initModule
    {| http_method := POST; http_url := [js "v1"; js "promotion"];
       http_authorization := None;
       http_body := Fixtures.dia_del_padre_image |}
    = Some ([onlyLoggedIn; Handler Routes.create], ∅)) by reflexivity.
  assert (Hne : [onlyLoggedIn; Handler Routes.create] ≠ [Handler Routes.read])
    by discriminate.
  split; [exact Hd|]. split; [exact Hne|]. split; [reflexivity|].
  destruct (session_middleware_first (Fixtures.env_of None) _ _ _
              Fixtures.two_promos Hd Hne) as (h & p & _ & Hs & Hrej & _).
  exists p. split; [exact Hs|].
  exact (Hrej Unauthorized Fixtures.two_promos eq_refl).
Defined.



(** * Further properties of the schema *)

Lemma trimStart_split (s : jsstring) :
  ∃ ws, s = ws ++ trimStart s ∧ blank ws.
Proof.
  induction s as [|c s (ws & IH & Hws)];
    [exists []; split; [done | constructor]|].
  cbn. destruct (isWhiteSpace c) eqn:Hc.
  - exists (c :: ws). split; [cbn; by f_equal|]. by apply Forall_cons.
  - exists []. split; [done | constructor].
Qed.

Lemma trimEnd_split (s : jsstring) :
  ∃ ws, s = trimEnd s ++ ws ∧ blank ws.
Proof.
  unfold trimEnd. destruct (trimStart_split (reverse s)) as (ws & Hs & Hws).
  exists (reverse ws). split.
  - rewrite <- reverse_app, <- Hs. by rewrite reverse_involutive.
  - by apply Forall_reverse.
Qed.

Lemma trimStart_nil_iff (s : jsstring) : trimStart s = [] ↔ blank s.
Proof.
  induction s as [|c s IH]; [split; [constructor | done]|].
  cbn. destruct (isWhiteSpace c) eqn:Hc.
  - rewrite IH. unfold blank. rewrite Forall_cons.
    split; [by split | by intros [_ ?]].
  - split; [done|]. intros Hb. apply Forall_cons in Hb as [Hc' _].
    congruence.
Qed.

Lemma trim_nil_iff (s : jsstring) : trim s = [] ↔ blank s.
Proof.
  split.
  - unfold trim, trimEnd. intros Ht.
    apply (f_equal reverse) in Ht. rewrite reverse_involutive in Ht.
    cbn in Ht. apply trimStart_nil_iff, Forall_reverse in Ht.
    rewrite reverse_involutive in Ht.
    apply trimStart_nil_iff.
    destruct (trimStart s) as [|c t] eqn:Hs; [done|].
    apply Forall_cons in Ht as [Hc _].
    pose proof (trimStart_head s c) as Hh. rewrite Hs in Hh.
    specialize (Hh eq_refl). congruence.
  - intros Hb. apply trimStart_nil_iff in Hb. unfold trim. by rewrite Hb.
Qed.

Lemma trimStart_fixed (s : jsstring) :
  (∀ c, head s = Some c → isWhiteSpace c = false) → trimStart s = s.
Proof.
  destruct s as [|c s]; [done|]. intros Hh. cbn. by rewrite (Hh c eq_refl).
Qed.

Lemma trim_fixed (s : jsstring) : no_outer_whitespace s → trim s = s.
Proof.
  intros [Hh Hl]. unfold trim. rewrite (trimStart_fixed s Hh).
  unfold trimEnd. rewrite trimStart_fixed; [apply reverse_involutive|].
  intros c. rewrite head_reverse. apply Hl.
Qed.

Lemma stored_idempotent (v : option jsstring) :
  stored (Some (stored v)) = stored v.
Proof. cbn. apply trim_fixed, stored_no_outer_whitespace. Qed.

(** Every entry of a report comes from a path of the schema and carries
    that path's [required] message. *)
Lemma validate_entries (sch : Schema) (d : gmap string Value)
    (it : ValidationItem) :
  it ∈ validate sch d →
  ∃ p, p ∈ paths sch ∧ path_name p = path it ∧
       opt_required p = Some (message it) ∧
       checkRequired (opt_type p) (d !! path_name p) = false.
Proof.
  unfold validate. intros Hin.
  apply list_elem_of_bind in Hin as (p & Hit & Hp).
  exists p. split; [done|].
  unfold validate_path in Hit.
  destruct (opt_required p) as [msg|]; [|by apply elem_of_nil in Hit].
  destruct (checkRequired _ _); [by apply elem_of_nil in Hit|].
  apply list_elem_of_singleton in Hit as ->. done.
Qed.

Lemma path_of_failure :
  path <$> failure "title" = ["title"] ∧
  path <$> failure "description" = ["description"] ∧
  path <$> failure "redirectLink" = ["redirectLink"] ∧
  path <$> failure "imageId" = ["imageId"] ∧
  path <$> failure "owner" = ["owner"].
Proof. repeat split; reflexivity. Qed.

(** The paths of a new document's report, in schema order. *)
Lemma report_paths (caller : option jsstring) (b : Body) :
  path <$> validate PublicitySchema (new_publicity caller b) =
  (if truthy (stored (body_title b)) then [] else ["title"]) ++
  (if truthy (stored (body_description b)) then [] else ["description"]) ++
  (if truthy (stored (body_redirectLink b)) then []
   else ["redirectLink"]) ++
  (if truthy (stored (body_imageId b)) then [] else ["imageId"]) ++
  (match caller with Some _ => [] | None => ["owner"] end).
Proof.
  rewrite validate_new_publicity, !fmap_app.
  destruct path_of_failure as (Ft & Fd & Fr & Fi & Fo).
  destruct (truthy (stored (body_title b))),
    (truthy (stored (body_description b))),
    (truthy (stored (body_redirectLink b))),
    (truthy (stored (body_imageId b))), caller;
    rewrite ?Ft, ?Fd, ?Fr, ?Fi, ?Fo; reflexivity.
Qed.

(** Which paths a new document's report names. *)
Lemma report_path_iff (caller : option jsstring) (b : Body) (k : string) :
  k ∈ path <$> validate PublicitySchema (new_publicity caller b) ↔
  (k = "title" ∧ stored (body_title b) = []) ∨
  (k = "description" ∧ stored (body_description b) = []) ∨
  (k = "redirectLink" ∧ stored (body_redirectLink b) = []) ∨
  (k = "imageId" ∧ stored (body_imageId b) = []) ∨
  (k = "owner" ∧ caller = None).
Proof.
  rewrite report_paths.
  destruct (stored (body_title b)) as [|? ?];
    destruct (stored (body_description b)) as [|? ?];
    destruct (stored (body_redirectLink b)) as [|? ?];
    destruct (stored (body_imageId b)) as [|? ?];
    destruct caller as [u|]; cbn [truthy app];
    rewrite ?elem_of_cons, ?elem_of_nil;
    intuition (try discriminate; try congruence).
Qed.

Lemma report_NoDup (caller : option jsstring) (b : Body) :
  NoDup (path <$> validate PublicitySchema (new_publicity caller b)).
Proof.
  rewrite report_paths.
  destruct (truthy (stored (body_title b))),
    (truthy (stored (body_description b))),
    (truthy (stored (body_redirectLink b))),
    (truthy (stored (body_imageId b))), caller; cbn [app];
    repeat (apply NoDup_cons; split;
            [rewrite ?elem_of_cons, ?elem_of_nil;
             intuition discriminate|]);
    apply NoDup_nil_2.
Qed.

(** X9.  The report of a create names each missing field once: it holds
    an entry for a text path exactly when the body's text is absent or
    empty after trimming, an entry for [owner] exactly when there is no
    owner, never one for [enabled], and each entry carries the message the
    schema declares for its path. *)
Theorem report_names_each_missing_field
    (caller : option jsstring) (b : Body) :
  (∀ k, k ∈ path <$> validate PublicitySchema (new_publicity caller b) ↔
        (k = "title" ∧ stored (body_title b) = []) ∨
        (k = "description" ∧ stored (body_description b) = []) ∨
        (k = "redirectLink" ∧ stored (body_redirectLink b) = []) ∨
        (k = "imageId" ∧ stored (body_imageId b) = []) ∨
        (k = "owner" ∧ caller = None)) ∧
  NoDup (path <$> validate PublicitySchema (new_publicity caller b)) ∧
  ("enabled" ∉ path <$> validate PublicitySchema (new_publicity caller b)) ∧
  (∀ it, it ∈ validate PublicitySchema (new_publicity caller b) →
         ∃ p, p ∈ paths PublicitySchema ∧ path_name p = path it ∧
              opt_required p = Some (message it)).
Proof.
  split; [intros k; apply report_path_iff|].
  split; [apply report_NoDup|].
  split.
  - rewrite report_path_iff. intuition discriminate.
  - intros it Hin.
    destruct (validate_entries _ _ _ Hin) as (p & ? & ? & ? & _).
    by exists p.
Qed.

(** The scenario body: the one entry of its report is the schema's
    [imageId] path with its message. *)
Lemma report_names_each_missing_field_witness :
  {| path := "imageId";
     message := js "Toda publicidad debe tener una image que la represente." |}
    ∈ validate PublicitySchema
        (new_publicity (Some Fixtures.admin_user) Fixtures.dia_del_padre) ∧
  ∃ p, p ∈ paths PublicitySchema ∧ path_name p = "imageId" ∧
       opt_required p =
         Some (js "Toda publicidad debe tener una image que la represente.").
Proof.
  assert (Hin : {| path := "imageId";
     message := js "Toda publicidad debe tener una image que la represente." |}
    ∈ validate PublicitySchema
        (new_publicity (Some Fixtures.admin_user) Fixtures.dia_del_padre)).
  { apply list_elem_of_In. left. reflexivity. }
  split; [exact Hin|].
  exact (proj2 (proj2 (proj2 (report_names_each_missing_field
                                (Some Fixtures.admin_user)
                                Fixtures.dia_del_padre))) _ Hin).
Defined.

(** X10.  A supplied text made of whitespace only counts as missing: the
    report has the entry of a text path exactly when the supplied text is
    blank (empty included). *)
Theorem blank_text_is_missing (caller : option jsstring) (b : Body)
    (s : jsstring) :
  (body_title b = Some s →
     ("title" ∈ path <$> validate PublicitySchema (new_publicity caller b)
      ↔ blank s)) ∧
  (body_description b = Some s →
     ("description"
        ∈ path <$> validate PublicitySchema (new_publicity caller b)
      ↔ blank s)) ∧
  (body_redirectLink b = Some s →
     ("redirectLink"
        ∈ path <$> validate PublicitySchema (new_publicity caller b)
      ↔ blank s)) ∧
  (body_imageId b = Some s →
     ("imageId" ∈ path <$> validate PublicitySchema (new_publicity caller b)
      ↔ blank s)).
Proof.
  split; [|split; [|split]]; intros Hs;
    rewrite report_path_iff, Hs; cbn [stored];
    rewrite trim_nil_iff; intuition discriminate.
Qed.

(** A title of two spaces and a tab is reported as missing. *)
Lemma blank_text_is_missing_witness :
  body_title {| body_title := Some [32%N; 32%N; 9%N];
                body_description := Some (js "...");
                body_redirectLink := Some (js "http://x");
                body_imageId := Some (js "img1");
                body_enabled := None; body_image := None |}
    = Some [32%N; 32%N; 9%N] ∧
  blank [32%N; 32%N; 9%N] ∧
  "title" ∈ path <$> validate PublicitySchema
                       (new_publicity (Some Fixtures.admin_user)
                          {| body_title := Some [32%N; 32%N; 9%N];
                             body_description := Some (js "...");
                             body_redirectLink := Some (js "http://x");
                             body_imageId := Some (js "img1");
                             body_enabled := None; body_image := None |}).
Proof.
  assert (Hb : blank [32%N; 32%N; 9%N]) by (repeat constructor).
  split; [reflexivity|]. split; [exact Hb|].
  exact (proj2 (proj1 (blank_text_is_missing (Some Fixtures.admin_user)
                         {| body_title := Some [32%N; 32%N; 9%N];
                            body_description := Some (js "...");
                            body_redirectLink := Some (js "http://x");
                            body_imageId := Some (js "img1");
                            body_enabled := None; body_image := None |}
                         [32%N; 32%N; 9%N]) eq_refl) Hb).
Defined.

Lemma trim_split (s : jsstring) :
  ∃ l r, s = l ++ trim s ++ r ∧ blank l ∧ blank r.
Proof.
  destruct (trimStart_split s) as (l & Hl & Bl).
  destruct (trimEnd_split (trimStart s)) as (r & Hr & Br).
  exists l, r. split; [|done]. unfold trim. by rewrite <- Hr.
Qed.

(** X11.  What the schema stores of a supplied text is the text without
    blanks at its two ends, the inner code units kept as they are; and a
    record's own values, submitted again, give the same record and the
    same report: trimming a stored value changes nothing. *)
Theorem resubmitting_changes_nothing
    (caller : option jsstring) (b : Body) (i : jsstring) :
  (∀ s, (body_title b = Some s →
           ∃ l r, s = l ++ title (hydrate i (new_publicity caller b)) ++ r ∧
                  blank l ∧ blank r) ∧
        (body_description b = Some s →
           ∃ l r, s = l ++ description (hydrate i (new_publicity caller b)) ++ r ∧
                  blank l ∧ blank r) ∧
        (body_redirectLink b = Some s →
           ∃ l r, s = l ++ redirectLink (hydrate i (new_publicity caller b)) ++ r ∧
                  blank l ∧ blank r) ∧
        (body_imageId b = Some s →
           ∃ l r, s = l ++ imageId (hydrate i (new_publicity caller b)) ++ r ∧
                  blank l ∧ blank r)) ∧
  hydrate i (new_publicity caller
               (resubmit (hydrate i (new_publicity caller b))))
    = hydrate i (new_publicity caller b) ∧
  validate PublicitySchema
    (new_publicity caller (resubmit (hydrate i (new_publicity caller b))))
    = validate PublicitySchema (new_publicity caller b).
Proof.
  split; [|split].
  - intros s. rewrite hydrate_new_publicity. cbn.
    repeat split; intros ->; apply trim_split.
  - rewrite !hydrate_new_publicity. unfold resubmit.
    cbn [body_title body_description body_redirectLink body_imageId
         body_enabled title description redirectLink imageId enabled].
    rewrite !stored_idempotent. by destruct (body_enabled b).
  - rewrite !validate_new_publicity, hydrate_new_publicity.
    unfold resubmit.
    cbn [body_title body_description body_redirectLink body_imageId
         body_enabled title description redirectLink imageId enabled].
    by rewrite !stored_idempotent.
Qed.

(** The blanks around the scenario's title are what trimming took off. *)
Lemma resubmitting_changes_nothing_witness :
  body_title Fixtures.dia_del_padre_image = Some (js "  Dia del Padre ") ∧
  ∃ l r,
    js "  Dia del Padre "
      = l ++ title (hydrate (js "p")
                      (new_publicity (Some Fixtures.admin_user)
                         Fixtures.dia_del_padre_image)) ++ r ∧
    blank l ∧ blank r.
Proof.
  split; [reflexivity|].
  exact (proj1 (proj1 (resubmitting_changes_nothing
                         (Some Fixtures.admin_user)
                         Fixtures.dia_del_padre_image (js "p"))
                  (js "  Dia del Padre ")) eq_refl).
Defined.

(** ** Documents built from any raw object *)





